(** * sqs.py: wrappers around an SQS client, and the demo script

    A shallow embedding of [src/sqs.py].  Every function of the script is a
    call (or a short sequence of calls) on a boto3 client object that the
    caller passes in; the client is duck-typed ([Any]) and talks to a remote
    service.  The embedding therefore takes the client as what it is for the
    script: a parameter, given as a handler that turns a method name and its
    keyword arguments into a transition of the service state.  The functions
    themselves are programs in a state-and-exception monad whose state holds
    the service state, the log of requests issued and the lines printed. *)

From stdpp Require Import gmap strings list pretty.

#[local] Set Warnings "-register-all".

Open Scope Z_scope.

(** ** Python values *)

(** The values the script handles: [None], integers, strings, lists, dicts
    with string keys (insertion ordered, as in Python), sets of strings (the
    script annotates [Set[str]]) and objects with named attributes (the boto3
    [Queue] resource). *)
Inductive value : Type :=
| VNone
| VInt (n : Z)
| VStr (s : string)
| VList (l : list value)
| VDict (d : list (string * value))
| VSet (s : gset string)
| VObj (fields : list (string * value)).

(** The exceptions that can travel through the script: Python's own and the
    two families botocore raises (a service error with its code, and the
    client-side parameter validation). *)
Inductive exn : Type :=
| TypeError (msg : string)
| KeyError (key : string)
| AttributeError (name : string)
| ClientError (code : string)
| ParamValidationError (report : string).

Definition result (A : Type) : Type := exn + A.

Definition kwargs : Type := list (string * value).

(** A request as the client object sees it, with how it ended: [client.meth]
    applied to the keyword arguments [args] returned a response or raised. *)
Record call : Type := Call { meth : string; args : kwargs; outcome : result value }.

(** ** Dictionaries *)

Fixpoint dict_get {V : Type} (k : string) (d : list (string * V)) : option V :=
  match d with
  | [] => None
  | (k', v) :: d' => if String.eqb k k' then Some v else dict_get k d'
  end.

Definition dict_has {V : Type} (k : string) (d : list (string * V)) : bool :=
  match dict_get k d with Some _ => true | None => false end.

(** [d[k] = v]: replaces in place, appends a new key. *)
Fixpoint dict_set {V : Type} (k : string) (v : V) (d : list (string * V))
  : list (string * V) :=
  match d with
  | [] => [(k, v)]
  | (k', v') :: d' =>
      if String.eqb k k' then (k, v) :: d' else (k', v') :: dict_set k v d'
  end.

(** [d.update(e)] *)
Definition dict_update {V : Type} (d e : list (string * V)) : list (string * V) :=
  fold_left (fun acc kv => dict_set (fst kv) (snd kv) acc) e d.

Definition dict_keys {V : Type} (d : list (string * V)) : list string :=
  map fst d.

(** ** The operators of Python the script applies to values *)

Definition type_name (v : value) : string :=
  match v with
  | VNone => "NoneType"
  | VInt _ => "int"
  | VStr _ => "str"
  | VList _ => "list"
  | VDict _ => "dict"
  | VSet _ => "set"
  | VObj _ => "object"
  end.

(** [v[k]] for a string literal [k]. *)
Definition subscript (v : value) (k : string) : result value :=
  match v with
  | VDict d =>
      match dict_get k d with
      | Some x => inr x
      | None => inl (KeyError k)
      end
  | VStr _ | VList _ => inl (TypeError "indices must be integers or slices, not str")
  | _ => inl (TypeError (type_name v +:+ " object is not subscriptable"))
  end.

(** [v.name] *)
Definition getattr (v : value) (name : string) : result value :=
  match v with
  | VObj fs =>
      match dict_get name fs with
      | Some x => inr x
      | None => inl (AttributeError name)
      end
  | _ => inl (AttributeError name)
  end.

Fixpoint chars (s : string) : list string :=
  match s with
  | EmptyString => []
  | String c s' => String c EmptyString :: chars s'
  end.

(** [k in v] for a string literal [k]: a key of a dict, an element of a list
    or set, a substring of a string. *)
Definition contains (k : string) (v : value) : result bool :=
  match v with
  | VDict d => inr (dict_has k d)
  | VList l =>
      inr (existsb (fun x => match x with VStr s => String.eqb k s | _ => false end) l)
  | VSet s => inr (bool_decide (k ∈ s))
  | VStr s => inr (match String.index 0 k s with Some _ => true | None => false end)
  | _ => inl (TypeError ("argument of type " +:+ type_name v +:+ " is not iterable"))
  end.

(** [len(v)] *)
Definition py_len (v : value) : result nat :=
  match v with
  | VStr s => inr (String.length s)
  | VList l => inr (length l)
  | VDict d => inr (length d)
  | VSet s => inr (size s)
  | _ => inl (TypeError ("object of type " +:+ type_name v +:+ " has no len()"))
  end.

(** What [for x in v] iterates over.  Python fixes no order for a set;
    [elements] stands for the order of the run. *)
Definition py_iter (v : value) : result (list value) :=
  match v with
  | VList l => inr l
  | VStr s => inr (VStr <$> chars s)
  | VDict d => inr (VStr <$> dict_keys d)
  | VSet s => inr (VStr <$> elements s)
  | _ => inl (TypeError (type_name v +:+ " object is not iterable"))
  end.

(** The keyword arguments a mapping unpacks to under the double-star
    operator. *)
Definition unpack (v : value) : result kwargs :=
  match v with
  | VDict d => inr d
  | _ => inl (TypeError "argument after ** must be a mapping")
  end.

(** Lists, dicts and sets are unhashable and cannot enter a set. *)
Definition hashable (v : value) : bool :=
  match v with
  | VList _ | VDict _ | VSet _ => false
  | _ => true
  end.

(** ** The world the script runs in *)

(** [B] is the state of the remote service.  A client is what boto3 hands
    out: a method name and keyword arguments make a request, which changes the
    service state and either returns a response or raises. *)
Definition client (B : Type) : Type := string → kwargs → B → B * result value.

Record world (B : Type) : Type := World {
  backend : B;
  calls : list call;
  stdout : list string
}.
Arguments World {B} _ _ _.
Arguments backend {B} _.
Arguments calls {B} _.
Arguments stdout {B} _.

(** A computation of the script: it may change the world and either returns
    or raises; what it did before raising stays done. *)
Definition py (B A : Type) : Type := world B → world B * result A.

Definition py_ret {B A : Type} (x : A) : py B A := fun w => (w, inr x).

Definition py_bind {B A C : Type} (m : py B A) (k : A → py B C) : py B C :=
  fun w =>
    match m w with
    | (w', inr x) => k x w'
    | (w', inl e) => (w', inl e)
    end.

#[global] Instance py_mret {B} : MRet (py B) := fun A x => py_ret x.
#[global] Instance py_mbind {B} : MBind (py B) := fun A C k m => py_bind m k.

Definition raise {B A : Type} (e : exn) : py B A := fun w => (w, inl e).

Definition lift {B A : Type} (r : result A) : py B A := fun w => (w, r).

(** A method call on the client: the request is handed to the client and
    logged with its outcome. *)
Definition invoke {B : Type} (c : client B) (m : string) (a : kwargs) : py B value :=
  fun w =>
    let '(b, r) := c m a (backend w) in
    (World b (calls w ++ [Call m a r]) (stdout w), r).

Definition print {B : Type} (line : string) : py B unit :=
  fun w => (World (backend w) (calls w) (stdout w ++ [line]), inr tt).

(** [for x in xs: body x] *)
Fixpoint for_each {B A : Type} (xs : list A) (body : A → py B unit) : py B unit :=
  match xs with
  | [] => mret tt
  | x :: xs' => _ ← body x; for_each xs' body
  end.

(** ** The functions of sqs.py *)

Definition QUEUE_NAME : string := "example_queue".
Definition QUEUE_NAME_FIFO : string := "example_fifo_queue.fifo".
Definition QUEUE_NAME_DEAD : string := "example_dead_queue".
Definition QUEUE_MAIN : string := "main_queue".

Section Script.
Context {B : Type}.

(** The two library functions the script formats values with are taken as
    they are: [json.dumps], which raises on what it cannot serialise, and
    [repr], which [str] falls back on for anything but a string. *)
Variable json_dumps : value → result string.
Variable py_repr : value → string.

Definition py_str (v : value) : string :=
  match v with
  | VStr s => s
  | _ => py_repr v
  end.

(** [X if name is None else name] *)
Definition or_default (name : value) (dflt : string) : value :=
  match name with
  | VNone => VStr dflt
  | _ => name
  end.

Definition sqs_create_queue (c : client B) (name : value) : py B value :=
  queue_desc ← invoke c "create_queue" [("QueueName", or_default name QUEUE_NAME)];
  mret queue_desc.

(** The loop of [sqs_delete_queue] over the URLs of a set, with the dict it
    fills. *)
Fixpoint delete_each (c : client B) (urls : list string)
    (response : list (string * value)) : py B (list (string * value)) :=
  match urls with
  | [] => mret response
  | _url :: urls' =>
      r ← invoke c "delete_queue" [("QueueUrl", VStr _url)];
      delete_each c urls' (dict_update response [(_url, r)])
  end.

Definition sqs_delete_queue (c : client B) (url : value) : py B value :=
  match url with
  | VStr _ => invoke c "delete_queue" [("QueueUrl", url)]
  | VSet s =>
      response ← delete_each c (elements s) [];
      mret (VDict response)
  | _ =>
      raise (TypeError "Must submit either a name as a string or a set object of names.")
  end.

Definition sqs_create_fifo_queue (c : client B) (name : value) : py B value :=
  queue_desc ← invoke c "create_queue"
    [("QueueName", or_default name QUEUE_NAME_FIFO);
     ("Attributes", VDict [("FifoQueue", VStr "true")])];
  mret queue_desc.

(** The attributes [sqs_create_queue_dead_dependency] sends, around the
    serialised policy. *)
Definition dead_dependency_attributes (policy : string) : list (string * value) :=
  [("DelaySeconds", VStr "0");
   ("MaximumMessageSize", VStr "262144");
   ("VisibilityTimeout", VStr "30");
   ("MessageRetentionPeriod", VStr "345680");
   ("ReceiveMessageWaitTimeSeconds", VStr "0");
   ("RedrivePolicy", VStr policy)].

Definition redrive_policy (dep_arn : value) : value :=
  VDict [("deadLetterTargetArn", dep_arn); ("maxReceiveCount", VInt 3)].

Definition sqs_create_queue_dead_dependency (c : client B) (dep_arn name : value)
  : py B value :=
  policy ← lift (json_dumps (redrive_policy dep_arn));
  sqs ← invoke c "create_queue"
    [("QueueName", or_default name QUEUE_MAIN);
     ("Attributes", VDict (dead_dependency_attributes policy))];
  mret sqs.

(** The [Queue] object the resource returns is taken with its attributes
    loaded, as they are once [.attributes] has been read. *)
Definition get_queue_arn (resource : client B) (name : value) : py B value :=
  queue ← invoke resource "get_queue_by_name" [("QueueName", name)];
  attributes ← lift (getattr queue "attributes");
  arn ← lift (subscript attributes "QueueArn");
  mret arn.

(** The expression of line 322 of the script, with its two queue names as
    parameters: the argument [dep_arn] is evaluated, by a lookup of the
    target's name, before the call it is passed to. *)
Definition create_queue_with_dead_letter (c resource : client B)
    (target name : value) : py B value :=
  dep_arn ← get_queue_arn resource target;
  sqs_create_queue_dead_dependency c dep_arn name.

(** [client.send_message] takes [QueueUrl=url] and the unpacked [msg]: a
    key of [msg] that repeats the explicit keyword is a [TypeError] before
    any request is made. *)
Definition send_message_to_queue (c : client B) (url msg : value) : py B value :=
  kw ← lift (unpack msg);
  if dict_has "QueueUrl" kw
  then raise (TypeError "got multiple values for keyword argument 'QueueUrl'")
  else
    response ← invoke c "send_message" (("QueueUrl", url) :: kw);
    mret response.

Definition send_batch_messages (c : client B) (url msgs : value) : py B value :=
  response ← invoke c "send_message_batch" [("QueueUrl", url); ("Entries", msgs)];
  mret response.

Definition poll_queue (c : client B) (url : value) (max_messages : option value)
  : py B value :=
  response ← invoke c "receive_message"
    [("QueueUrl", url); ("MaxNumberOfMessages", default (VInt 10) max_messages)];
  mret response.

(** The closure of [process_queue]; [client] and [url] are its nonlocals. *)
Definition delete_message_from_queue (c : client B) (url receipt : value)
  : py B value :=
  response ← invoke c "delete_message" [("QueueUrl", url); ("ReceiptHandle", receipt)];
  mret response.

(** The body of the loop of [process_queue] for one message. *)
Definition process_message (c : client B) (url message : value) : py B unit :=
  mid ← lift (subscript message "MessageId");
  body ← lift (subscript message "Body");
  _ ← print ("Processing message: " +:+ py_str mid +:+ "; body: " +:+ py_str body);
  receipt ← lift (subscript message "ReceiptHandle");
  _ ← delete_message_from_queue c url receipt;
  mret tt.

(** ['Messages' in objects and len(objects['Messages']) != 0] *)
Definition has_messages (objects : value) : result bool :=
  match contains "Messages" objects with
  | inl e => inl e
  | inr false => inr false
  | inr true =>
      match subscript objects "Messages" with
      | inl e => inl e
      | inr ms =>
          match py_len ms with
          | inl e => inl e
          | inr n => inr (negb (Nat.eqb n 0))
          end
      end
  end.

Definition process_queue (c : client B) (url : value) : py B value :=
  objects ← poll_queue c url None;
  go ← lift (has_messages objects);
  _ ← (if go : bool
       then
         ms ← lift (subscript objects "Messages");
         messages ← lift (py_iter ms);
         for_each messages (process_message c url)
       else mret tt);
  mret VNone.

Definition change_message_visibility_timeout (c : client B)
    (url receipt : value) (timeout : option value) : py B value :=
  response ← invoke c "change_message_visibility"
    [("QueueUrl", url); ("ReceiptHandle", receipt);
     ("VisibilityTimeout", default (VInt 5) timeout)];
  mret response.

Definition purge_queue (c : client B) (url : value) : py B value :=
  response ← invoke c "purge_queue" [("QueueUrl", url)];
  mret response.

(** *** The script *)

(** [queue_urls.add(x)]: the set is only ever written, so what is kept of
    it is the values added; an unhashable one raises. *)
Definition set_add (s : list value) (x : value) : py B (list value) :=
  if hashable x
  then mret (s ++ [x])
  else raise (TypeError ("unhashable type: " +:+ type_name x)).

(** [print(json.dumps(x))] *)
Definition print_json (x : value) : py B unit :=
  line ← lift (json_dumps x);
  print line.

Definition example_message (now : string) : list (string * value) :=
  [("MessageAttributes",
    VDict [("Title", VDict [("DataType", VStr "String");
                            ("StringValue", VStr "My example message")]);
           ("Author", VDict [("DataType", VStr "String");
                             ("StringValue", VStr "Example Author")]);
           ("Date", VDict [("DataType", VStr "String");
                           ("StringValue", VStr now)])]);
   ("MessageBody", VStr "This is my first SQS message!!! :D :D")].

(** An entry of the batch: a dict with a fresh ['Id'], then the items of
    [example_message]. *)
Definition batch_entry (id : string) (now : string) : value :=
  VDict (dict_update [("Id", VStr id)] (example_message now)).

(** The body under [if __name__ == '__main__'], in the two parts its
    comments divide it in.  First the queues (lines 299 to 325): the regular
    one, the FIFO one, the dead-letter one and then the main one, which
    depends on it.  The set [queue_urls] and the URL of the regular queue are
    what the rest of the script has of it. *)
Definition main_queues (c resource : client B) : py B (value * list value) :=
  let queue_urls := [] in
  reg_response ← sqs_create_queue c VNone;
  QUEUE_URL_REG ← lift (subscript reg_response "QueueUrl");
  queue_urls ← set_add queue_urls QUEUE_URL_REG;
  _ ← print_json reg_response;
  fifo_response ← sqs_create_fifo_queue c VNone;
  QUEUE_URL_FIFO ← lift (subscript fifo_response "QueueUrl");
  queue_urls ← set_add queue_urls QUEUE_URL_FIFO;
  _ ← print_json fifo_response;
  dead_response ← sqs_create_queue c (VStr QUEUE_NAME_DEAD);
  QUEUE_URL_DEAD ← lift (subscript dead_response "QueueUrl");
  queue_urls ← set_add queue_urls QUEUE_URL_DEAD;
  _ ← print_json dead_response;
  main_response ← create_queue_with_dead_letter c resource
                    (VStr QUEUE_NAME_DEAD) (VStr QUEUE_MAIN);
  QUEUE_URL_MAIN ← lift (subscript main_response "QueueUrl");
  queue_urls ← set_add queue_urls QUEUE_URL_MAIN;
  _ ← print_json main_response;
  mret (QUEUE_URL_REG, queue_urls).

(** Then the messages (lines 327 to 361): one sent, four sent as a batch,
    and the queue processed.  [now] is what [str(dt.now())] gave and
    [uuid1 i] what the [i]-th [str(uuid.uuid1())] gave. *)
Definition main_messages (c : client B) (QUEUE_URL_REG : value)
    (now : string) (uuid1 : nat → string) : py B unit :=
  send_message_response ← send_message_to_queue c QUEUE_URL_REG (VDict (example_message now));
  _ ← print_json send_message_response;
  let entries := VList ((fun i => batch_entry (uuid1 i) now) <$> seq 0 4) in
  batch_response ← send_batch_messages c QUEUE_URL_REG entries;
  _ ← print_json batch_response;
  _ ← process_queue c QUEUE_URL_REG;
  mret tt.

Definition main (c resource : client B) (now : string) (uuid1 : nat → string)
  : py B unit :=
  queues ← main_queues c resource;
  main_messages c queues.1 now uuid1.

End Script.

(** ** Stand-ins for the two library functions

    Used where a statement is evaluated on a concrete run.  [plain_dumps]
    writes strings between quotes without escaping, which is what
    [json.dumps] does on the printable ASCII the examples use. *)

Definition quote : string := String (Ascii.ascii_of_nat 34) EmptyString.

Definition join (sep : string) (l : list string) : string :=
  match l with
  | [] => ""
  | x :: l' => fold_left (fun acc y => acc +:+ sep +:+ y) l' x
  end.

Fixpoint plain_dumps (v : value) : result string :=
  match v with
  | VNone => inr "null"
  | VInt n => inr (pretty n)
  | VStr s => inr (quote +:+ s +:+ quote)
  | VList l =>
      let fix items (l : list value) : result (list string) :=
        match l with
        | [] => inr []
        | x :: l' =>
            match plain_dumps x, items l' with
            | inr a, inr b => inr (a :: b)
            | inl e, _ => inl e
            | _, inl e => inl e
            end
        end in
      match items l with
      | inr xs => inr ("[" +:+ join ", " xs +:+ "]")
      | inl e => inl e
      end
  | VDict d =>
      let fix items (d : list (string * value)) : result (list string) :=
        match d with
        | [] => inr []
        | (k, x) :: d' =>
            match plain_dumps x, items d' with
            | inr a, inr b => inr ((quote +:+ k +:+ quote +:+ ": " +:+ a) :: b)
            | inl e, _ => inl e
            | _, inl e => inl e
            end
        end in
      match items d with
      | inr xs => inr ("{" +:+ join ", " xs +:+ "}")
      | inl e => inl e
      end
  | VSet _ => inl (TypeError "Object of type set is not JSON serializable")
  | VObj _ => inl (TypeError "Object of type object is not JSON serializable")
  end.

Definition plain_repr (v : value) : string :=
  match plain_dumps v with
  | inr s => s
  | inl _ => "<" +:+ type_name v +:+ ">"
  end.

(** ** A reference service

    An in-memory queue service with the behaviour the script's comments and
    the service's documentation describe: creating a queue is idempotent, a
    name deleted recently cannot be created again, a received message is
    hidden until deleted or released, and a request that lacks a required
    parameter is refused as a whole. *)
Module Fake.

Record message : Type := Message {
  m_id : string;
  m_body : string;
  receives : nat;
  in_flight : bool
}.

Record queue : Type := Queue { q_name : string; q_messages : list message }.

Record state : Type := State {
  queues : list queue;
  deleted_recently : list string;
  next_id : nat
}.

Definition empty : state := State [] [] 0.

Definition url_of (name : string) : string := "https://sqs.test/" +:+ name.
Definition arn_of (name : string) : string := "arn:aws:sqs:test:" +:+ name.

Definition receipt_of (m : message) : string :=
  m_id m +:+ "#" +:+ pretty (receives m).

Definition find_queue (url : string) (b : state) : option queue :=
  find (fun q => String.eqb (url_of (q_name q)) url) (queues b).

Definition has_name (name : string) (b : state) : bool :=
  existsb (fun q => String.eqb (q_name q) name) (queues b).

(** Replaces the messages of the queue at [url]. *)
Definition set_messages (url : string) (ms : list message) (b : state) : state :=
  State (map (fun q => if String.eqb (url_of (q_name q)) url
                       then Queue (q_name q) ms else q) (queues b))
        (deleted_recently b) (next_id b).

Definition ok : result value := inr (VDict []).
Definition no_queue : result value :=
  inl (ClientError "AWS.SimpleQueueService.NonExistentQueue").
Definition missing (param : string) : result value :=
  inl (ParamValidationError ("Missing required parameter: " +:+ param)).

Definition create_queue (a : kwargs) (b : state) : state * result value :=
  match dict_get "QueueName" a with
  | Some (VStr n) =>
      if existsb (String.eqb n) (deleted_recently b)
      then (b, inl (ClientError "AWS.SimpleQueueService.QueueDeletedRecently"))
      else
        let b' := if has_name n b then b
                  else State (queues b ++ [Queue n []]) (deleted_recently b) (next_id b) in
        (b', inr (VDict [("QueueUrl", VStr (url_of n))]))
  | _ => (b, missing "QueueName")
  end.

Definition delete_queue (a : kwargs) (b : state) : state * result value :=
  match dict_get "QueueUrl" a with
  | Some (VStr u) =>
      match find_queue u b with
      | Some q =>
          (State (filter (fun q' => q_name q' ≠ q_name q) (queues b))
                 (q_name q :: deleted_recently b) (next_id b), ok)
      | None => (b, no_queue)
      end
  | _ => (b, missing "QueueUrl")
  end.

Definition get_queue_by_name (a : kwargs) (b : state) : state * result value :=
  match dict_get "QueueName" a with
  | Some (VStr n) =>
      if has_name n b
      then (b, inr (VObj [("url", VStr (url_of n));
                          ("attributes", VDict [("QueueArn", VStr (arn_of n))])]))
      else (b, no_queue)
  | _ => (b, missing "QueueName")
  end.

Definition fresh_id (b : state) : string := "m" +:+ pretty (next_id b).

Definition enqueue (u body : string) (q : queue) (b : state) : state :=
  State (queues (set_messages u (q_messages q ++ [Message (fresh_id b) body 0 false]) b))
        (deleted_recently b) (S (next_id b)).

Definition send_message (a : kwargs) (b : state) : state * result value :=
  match dict_get "QueueUrl" a, dict_get "MessageBody" a with
  | Some (VStr u), Some (VStr body) =>
      match find_queue u b with
      | Some q => (enqueue u body q b, inr (VDict [("MessageId", VStr (fresh_id b))]))
      | None => (b, no_queue)
      end
  | Some (VStr _), _ => (b, missing "MessageBody")
  | _, _ => (b, missing "QueueUrl")
  end.

(** The two required fields of a batch entry. *)
Definition entry_fields (e : value) : option (string * string) :=
  match e with
  | VDict d =>
      match dict_get "Id" d, dict_get "MessageBody" d with
      | Some (VStr i), Some (VStr body) => Some (i, body)
      | _, _ => None
      end
  | _ => None
  end.

(** Entries are taken one by one: an empty body is reported as failed for
    its entry, the others are enqueued. *)
Fixpoint send_entries (u : string) (es : list (string * string)) (b : state)
    (good bad : list value) : state * (list value * list value) :=
  match es with
  | [] => (b, (good, bad))
  | (i, body) :: es' =>
      match find_queue u b with
      | Some q =>
          if String.eqb body ""
          then send_entries u es' b good
                 (bad ++ [VDict [("Id", VStr i); ("Code", VStr "EmptyValue")]])
          else send_entries u es' (enqueue u body q b)
                 (good ++ [VDict [("Id", VStr i); ("MessageId", VStr (fresh_id b))]]) bad
      | None => (b, (good, bad))
      end
  end.

Definition send_message_batch (a : kwargs) (b : state) : state * result value :=
  match dict_get "QueueUrl" a, dict_get "Entries" a with
  | Some (VStr u), Some (VList es) =>
      match mapM entry_fields es with
      | None => (b, missing "Entries[].Id or Entries[].MessageBody")
      | Some fs =>
          match find_queue u b with
          | None => (b, no_queue)
          | Some _ =>
              let '(b', (good, bad)) := send_entries u fs b [] [] in
              (b', inr (VDict [("Successful", VList good); ("Failed", VList bad)]))
          end
      end
  | Some (VStr _), _ => (b, missing "Entries")
  | _, _ => (b, missing "QueueUrl")
  end.

(** Hands out up to [n] of the visible messages, in order. *)
Fixpoint deliver (n : nat) (ms : list message) : list message * list value :=
  match ms with
  | [] => ([], [])
  | m :: ms' =>
      match n, in_flight m with
      | S n', false =>
          let m' := Message (m_id m) (m_body m) (S (receives m)) true in
          let '(rest, out) := deliver n' ms' in
          (m' :: rest,
           VDict [("MessageId", VStr (m_id m)); ("ReceiptHandle", VStr (receipt_of m'));
                  ("Body", VStr (m_body m))] :: out)
      | _, _ => let '(rest, out) := deliver n ms' in (m :: rest, out)
      end
  end.

Definition receive_message (a : kwargs) (b : state) : state * result value :=
  match dict_get "QueueUrl" a with
  | Some (VStr u) =>
      match find_queue u b with
      | Some q =>
          let n := match dict_get "MaxNumberOfMessages" a with
                   | Some (VInt n) => Z.to_nat n
                   | _ => 1%nat
                   end in
          let '(ms, out) := deliver n (q_messages q) in
          (set_messages u ms b,
           inr (VDict (match out with [] => [] | _ => [("Messages", VList out)] end)))
      | None => (b, no_queue)
      end
  | _ => (b, missing "QueueUrl")
  end.

Definition holds_receipt (r : string) (m : message) : bool :=
  in_flight m && String.eqb (receipt_of m) r.

Definition delete_message (a : kwargs) (b : state) : state * result value :=
  match dict_get "QueueUrl" a, dict_get "ReceiptHandle" a with
  | Some (VStr u), Some (VStr r) =>
      match find_queue u b with
      | Some q =>
          if existsb (holds_receipt r) (q_messages q)
          then (set_messages u (filter (fun m => holds_receipt r m = false) (q_messages q)) b, ok)
          else (b, inl (ClientError "ReceiptHandleIsInvalid"))
      | None => (b, no_queue)
      end
  | Some (VStr _), _ => (b, missing "ReceiptHandle")
  | _, _ => (b, missing "QueueUrl")
  end.

Definition purge_queue (a : kwargs) (b : state) : state * result value :=
  match dict_get "QueueUrl" a with
  | Some (VStr u) =>
      match find_queue u b with
      | Some _ => (set_messages u [] b, ok)
      | None => (b, no_queue)
      end
  | _ => (b, missing "QueueUrl")
  end.

(** The client and the resource of the script, on this service.  The
    service keeps no clock, so a change of visibility is outside it. *)
Definition service : client state := fun m a b =>
  if String.eqb m "create_queue" then create_queue a b
  else if String.eqb m "delete_queue" then delete_queue a b
  else if String.eqb m "get_queue_by_name" then get_queue_by_name a b
  else if String.eqb m "send_message" then send_message a b
  else if String.eqb m "send_message_batch" then send_message_batch a b
  else if String.eqb m "receive_message" then receive_message a b
  else if String.eqb m "delete_message" then delete_message a b
  else if String.eqb m "purge_queue" then purge_queue a b
  else (b, inl (AttributeError m)).

(** A replica of the service that misses deletions: the request is
    acknowledged, the copy of the message stays and is visible again. *)
Definition release (m : message) : message :=
  Message (m_id m) (m_body m) (receives m) false.

Definition stale_replica : client state := fun m a b =>
  if String.eqb m "delete_message"
  then match dict_get "QueueUrl" a with
       | Some (VStr u) =>
           match find_queue u b with
           | Some q => (set_messages u (release <$> q_messages q) b, ok)
           | None => (b, no_queue)
           end
       | _ => (b, missing "QueueUrl")
       end
  else service m a b.

Definition start (b : state) : world state := World b [] [].

End Fake.

(** ** A service with a clock

    One message is in flight, under the receipt ["r"]; the service keeps its
    clock and the deadline of the message.  A change of visibility does what
    the service documents: the new timeout counts from the time of the
    request, a receipt whose message is no longer in flight is refused as
    [MessageNotInflight] and a receipt it never gave as
    [ReceiptHandleIsInvalid]. *)
Module Timed.

Record state : Type := State { clock : Z; deadline : Z }.

Definition change_message_visibility (a : kwargs) (b : state)
  : state * result value :=
  match dict_get "ReceiptHandle" a, dict_get "VisibilityTimeout" a with
  | Some (VStr r), Some (VInt t) =>
      if negb (String.eqb r "r")
      then (b, inl (ClientError "ReceiptHandleIsInvalid"))
      else if deadline b <=? clock b
      then (b, inl (ClientError "MessageNotInflight"))
      else (State (clock b) (clock b + t), inr (VDict []))
  | _, _ => (b, inl (ParamValidationError "Missing required parameter"))
  end.

Definition service : client state := fun m a b =>
  if String.eqb m "change_message_visibility"
  then change_message_visibility a b
  else (b, inl (AttributeError m)).

(** The deadline the service keeps for a receipt. *)
Definition deadline_of (b : state) (r : value) : option Z :=
  match r with
  | VStr s => if String.eqb s "r" then Some (deadline b) else None
  | _ => None
  end.


Definition start (c d : Z) : world state := World (State c d) [] [].

End Timed.

(** * Properties *)

(** The computation raises in this world. *)
Definition raises {B A : Type} (m : py B A) (w : world B) : Prop :=
  ∃ e, (m w).2 = inl e.

(** The requests made between two worlds. *)
Definition new_calls {B : Type} (w w' : world B) : list call :=
  drop (length (calls w)) (calls w').

(** ** States of the reference service the examples start from *)

(** The reference service with a queue ["q"] that holds the messages of the
    given bodies. *)
Definition queue_with (bodies : list string) : Fake.state :=
  fold_left (fun b body =>
               (Fake.send_message [("QueueUrl", VStr (Fake.url_of "q"));
                                   ("MessageBody", VStr body)] b).1)
            bodies (Fake.create_queue [("QueueName", VStr "q")] Fake.empty).1.

(** The reference service with the dead-letter queue of the script. *)
Definition with_dead_queue : Fake.state :=
  (Fake.create_queue [("QueueName", VStr QUEUE_NAME_DEAD)] Fake.empty).1.

(** The same, where a main queue has just been deleted. *)
Definition main_deleted_recently : Fake.state :=
  (Fake.delete_queue [("QueueUrl", VStr (Fake.url_of QUEUE_MAIN))]
     (Fake.create_queue [("QueueName", VStr QUEUE_MAIN)] with_dead_queue).1).1.

(** ** The statements of the specification, on the functions of the script *)

(** An entry of a batch is well formed when it is a dict with a string
    ['Id'] and a string ['MessageBody'], the fields a batch entry requires. *)
Definition well_formed_entry (e : value) : bool :=
  match Fake.entry_fields e with Some _ => true | None => false end.

(** How many entries a batch response lists as successful and as failed. *)
Definition batch_results (resp : value) : option (nat * nat) :=
  match subscript resp "Successful", subscript resp "Failed" with
  | inr (VList good), inr (VList bad) => Some (length good, length bad)
  | _, _ => None
  end.

(** The batch property as the specification has it: a batch of one to ten
    entries, exactly one of them malformed, is answered entry by entry. *)
Definition reports_each_entry {B : Type} (c : client B) : Prop :=
  ∀ (url : value) (es : list value) (w : world B),
    (1 ≤ length es ≤ 10)%nat →
    length (filter (fun e => well_formed_entry e = false) es) = 1%nat →
    ∃ resp, (send_batch_messages c url (VList es) w).2 = inr resp ∧
            batch_results resp = Some ((length es - 1)%nat, 1%nat).

(** The visibility property as the specification has it, on the service
    with a clock: extending an unexpired receipt sets the deadline to the
    time of the call plus the new timeout. *)
Definition extension_replaces_deadline (c : client Timed.state) : Prop :=
  ∀ (url : value) (t : Z) (w w' : world Timed.state) (resp : value),
    Timed.clock (backend w) < Timed.deadline (backend w) →
    change_message_visibility_timeout c url (VStr "r") (Some (VInt t)) w = (w', inr resp) →
    Timed.deadline (backend w') = Timed.clock (backend w) + t.

(** The expiry property as the specification has it: with a receipt whose
    deadline has passed, the extension fails. *)
Definition expired_receipt_refused (c : client Timed.state) : Prop :=
  ∀ (url : value) (t : Z) (w : world Timed.state),
    Timed.deadline (backend w) ≤ Timed.clock (backend w) →
    raises (change_message_visibility_timeout c url (VStr "r") (Some (VInt t))) w.

(** What it is for a service to replace a deadline: a change of visibility
    that returns leaves the deadline of the receipt at the service's clock at
    the time of the request plus the timeout asked for. *)
Definition replaces_deadline {B : Type} (clock : B → Z)
    (deadline : B → value → option Z) (c : client B) : Prop :=
  ∀ (a : kwargs) (b b' : B) (resp r : value) (t : Z),
    c "change_message_visibility" a b = (b', inr resp) →
    dict_get "ReceiptHandle" a = Some r →
    dict_get "VisibilityTimeout" a = Some (VInt t) →
    deadline b' r = Some (clock b + t).

(** The request [sqs_delete_queue] makes for one URL, and its entry in the
    log. *)
Definition delete_request (u : string) : string * kwargs :=
  ("delete_queue", [("QueueUrl", VStr u)]).

Definition delete_call (u : string) (o : result value) : call :=
  Call "delete_queue" [("QueueUrl", VStr u)] o.

(** The service state after a sequence of requests. *)
Fixpoint replay {B : Type} (c : client B) (reqs : list (string * kwargs)) (b : B) : B :=
  match reqs with
  | [] => b
  | (m, a) :: reqs' => replay c reqs' (c m a b).1
  end.

(** The statement of the specification on failures, for [sqs_delete_queue]:
    a call that raises leaves the service as it was. *)
Definition failure_changes_nothing {B : Type} (c : client B) : Prop :=
  ∀ (url : value) (w w' : world B) (e : exn),
    sqs_delete_queue c url w = (w', inl e) → backend w' = backend w.

(** A delivered message as [process_queue] expects it: a dict with the
    three keys its loop reads. *)
Definition well_delivered (m : value) : Prop :=
  ∃ i b r : value,
    subscript m "MessageId" = inr i ∧ subscript m "Body" = inr b ∧
    subscript m "ReceiptHandle" = inr r.

Definition receipt_handle (m : value) : value :=
  match subscript m "ReceiptHandle" with
  | inr r => r
  | inl _ => VNone
  end.

(** The line [process_queue] prints for a message. *)
Definition processing_line (py_repr : value → string) (m : value) : string :=
  match subscript m "MessageId", subscript m "Body" with
  | inr i, inr b =>
      "Processing message: " +:+ py_str py_repr i +:+ "; body: " +:+ py_str py_repr b
  | _, _ => ""
  end.

(** The requests of [process_queue], as logged. *)
Definition poll_request (url : value) : kwargs :=
  [("QueueUrl", url); ("MaxNumberOfMessages", VInt 10)].

Definition delete_message_call (url m : value) (o : result value) : call :=
  Call "delete_message" [("QueueUrl", url); ("ReceiptHandle", receipt_handle m)] o.

(** The drain of the specification applies a handler the caller supplies and
    deletes a message only when the handler succeeded on it, so that with a
    handler that always fails nothing is deleted.  [process_queue] takes no
    handler: whichever the caller has in mind, it runs the same. *)
Definition deletes_only_processed {B : Type}
    (drain : client B → value → py B value) : Prop :=
  ∀ (handler : value → bool) (c : client B) (url : value) (w : world B),
    (∀ m, handler m = false) →
    ∀ k, k ∈ new_calls w (drain c url w).1 → meth k ≠ "delete_message".

(** The ids of the messages a [receive_message] response holds. *)
Definition received_ids (objects : value) : list value :=
  match subscript objects "Messages" with
  | inr (VList ms) =>
      omap (fun m => match subscript m "MessageId" with
                     | inr i => Some i
                     | inl _ => None
                     end) ms
  | _ => []
  end.

(** The round trip of the specification: a message sent, received and
    deleted with the receipt of that delivery is not received again. *)
Definition deleted_not_received_again {B : Type} (c : client B) : Prop :=
  ∀ (url msg : value) (w w1 w2 w3 w4 : world B)
    (sent objects m mid receipt ack later : value),
    send_message_to_queue c url msg w = (w1, inr sent) →
    subscript sent "MessageId" = inr mid →
    poll_queue c url None w1 = (w2, inr objects) →
    subscript objects "Messages" = inr (VList [m]) →
    subscript m "MessageId" = inr mid →
    subscript m "ReceiptHandle" = inr receipt →
    delete_message_from_queue c url receipt w2 = (w3, inr ack) →
    poll_queue c url None w3 = (w4, inr later) →
    mid ∉ received_ids later.

(** How [get_queue_arn] reads the ARN off the outcome of the lookup. *)
Definition resolved_arn (o : result value) : result value :=
  match o with
  | inl e => inl e
  | inr queue =>
      match getattr queue "attributes" with
      | inl e => inl e
      | inr attributes => subscript attributes "QueueArn"
      end
  end.

(** The two requests of [create_queue_with_dead_letter]. *)
Definition lookup_request (target : value) : kwargs := [("QueueName", target)].

Definition dependent_request (name : value) (policy : string) : kwargs :=
  [("QueueName", or_default name QUEUE_MAIN);
   ("Attributes", VDict (dead_dependency_attributes policy))].

(** The statement of the specification on attaching a redrive policy: it
    fails exactly when the target does not resolve or the receive count is
    below one.  The script has no parameter for the count: it is the one the
    policy it builds carries. *)
Definition attach_fails_only_as_specified {B : Type}
    (json_dumps : value → result string) (c resource : client B) : Prop :=
  ∀ (target name : value) (maxReceiveCount : Z) (w : world B),
    subscript (redrive_policy VNone) "maxReceiveCount" = inr (VInt maxReceiveCount) →
    (raises (create_queue_with_dead_letter json_dumps c resource target name) w ↔
     raises (get_queue_arn resource target) w ∨ maxReceiveCount < 1).

(** A request that creates a queue with a redrive policy. *)
Definition carries_redrive_policy (k : call) : Prop :=
  meth k = "create_queue" ∧
  ∃ (attrs : list (string * value)) (p : value),
    dict_get "Attributes" (args k) = Some (VDict attrs) ∧
    dict_get "RedrivePolicy" attrs = Some p.

(** Every request the computation makes satisfies [P]. *)
Definition issues_only {B A : Type} (P : call → Prop) (m : py B A) : Prop :=
  ∀ (w w' : world B) (r : result A),
    m w = (w', r) → ∃ l, calls w' = calls w ++ l ∧ Forall P l.

(** ** Further notions, for the rest of the script *)

(** The first of the three keys the loop of [process_queue] reads that a
    dict lacks, in the order it reads them. *)
Definition missing_key (m : value) : option string :=
  match m with
  | VDict d =>
      if negb (dict_has "MessageId" d) then Some "MessageId"
      else if negb (dict_has "Body" d) then Some "Body"
      else if negb (dict_has "ReceiptHandle" d) then Some "ReceiptHandle"
      else None
  | _ => None
  end.

(** The request returned a response. *)
Definition returned (k : call) : Prop := ∃ x, outcome k = inr x.

(** A computation that makes no request after one that raised, and raises
    what that request raised. *)
Definition fail_fast {B A : Type} (m : py B A) : Prop :=
  ∀ (w w' : world B) (r : result A),
    m w = (w', r) →
    ∃ l, calls w' = calls w ++ l ∧
         (Forall returned l ∨
          ∃ (l0 : list call) (k : call) (e : exn),
            l = l0 ++ [k] ∧ Forall returned l0 ∧ outcome k = inl e ∧ r = inl e).

(** The queues of a list deleted one by one, each by a call of
    [sqs_delete_queue] on its URL as a string. *)
Definition delete_singly {B : Type} (c : client B) (urls : list string) : py B unit :=
  for_each urls (fun u => _ ← sqs_delete_queue c (VStr u); mret tt).

(** The methods of the client and the resource the script calls, and those
    among them that act on the messages of a queue. *)
Definition script_methods : list string :=
  ["create_queue"; "get_queue_by_name"; "send_message"; "send_message_batch";
   "receive_message"; "delete_message"].

Definition message_methods : list string :=
  ["send_message"; "send_message_batch"; "receive_message"; "delete_message"].

(** Whenever the computation returns, what it returns satisfies [Q]. *)
Definition returns_only {B A : Type} (Q : A → Prop) (m : py B A) : Prop :=
  ∀ (w w' : world B) (v : A), m w = (w', inr v) → Q v.

(** A client that answers every [receive_message] with the same response
    and acknowledges any other request; it keeps no state. *)
Definition canned (response : value) : client unit := fun m a b =>
  if String.eqb m "receive_message" then (b, inr response) else (b, inr (VDict [])).

(** The name an exception goes by: its class, and for an error of the
    service the code the service gave it. *)
Definition error_name (e : exn) : string :=
  match e with
  | TypeError _ => "TypeError"
  | KeyError _ => "KeyError"
  | AttributeError _ => "AttributeError"
  | ClientError code => code
  | ParamValidationError _ => "ParamValidationError"
  end.

(** The expiry property with the error the specification names: with a
    receipt whose deadline has passed, the extension fails with
    [ReceiptExpiredError]. *)
Definition expired_receipt_error (c : client Timed.state) : Prop :=
  ∀ (url : value) (t : Z) (w : world Timed.state),
    Timed.deadline (backend w) ≤ Timed.clock (backend w) →
    ∃ e, (change_message_visibility_timeout c url (VStr "r") (Some (VInt t)) w).2 = inl e ∧
         error_name e = "ReceiptExpiredError".

(** The ordering property as the specification has it, for a computation:
    whenever it creates a queue with a redrive policy, the queue the policy
    targets was created before, and right before the creation its name was
    looked up; the target of the policy is the ARN the lookup gave. *)
Definition dead_letter_queue_resolved_first {B A : Type}
    (json_dumps : value → result string) (m : py B A) : Prop :=
  ∀ (w w' : world B) (r : result A) (k : call),
    m w = (w', r) →
    k ∈ new_calls w w' →
    carries_redrive_policy k →
    ∃ (before rest : list call) (target queue arn : value) (policy : string),
      new_calls w w' =
        before ++ [Call "get_queue_by_name" [("QueueName", target)] (inr queue); k]
               ++ rest ∧
      (∃ (a : kwargs) (dead : value),
         Call "create_queue" (("QueueName", target) :: a) (inr dead) ∈ before) ∧
      resolved_arn (inr queue) = inr arn ∧
      json_dumps (redrive_policy arn) = inr policy ∧
      dict_get "Attributes" (args k) = Some (VDict (dead_dependency_attributes policy)).

Lemma new_calls_app {B : Type} (w w' : world B) (l : list call) :
  calls w' = calls w ++ l → new_calls w w' = l.
Proof. unfold new_calls. intros ->. by rewrite drop_app_length. Qed.

Ltac py_unfold :=
  cbv [mbind mret py_mbind py_mret py_bind py_ret raise lift print] in *.

Section Forwarding.
Context {B : Type}.
Implicit Types (c : client B) (w : world B).

Lemma invoke_inv c m a w w' r :
  invoke c m a w = (w', r) →
  c m a (backend w) = (backend w', r) ∧
  calls w' = calls w ++ [Call m a r] ∧ stdout w' = stdout w.
Proof.
  unfold invoke. destruct (c m a (backend w)) as [b x].
  intros [= <- <-]. done.
Qed.

(** Binding a computation to [return] changes nothing: the shape
    [response = ...; return response] of the wrappers. *)
Lemma bind_ret {A : Type} (m : py B A) w : (x ← m; mret x) w = m w.
Proof. py_unfold. by destruct (m w) as [w' [e|x]]. Qed.

Lemma bind_inv {A C : Type} (m : py B A) (k : A → py B C) w w' (r : result C) :
  (x ← m; k x) w = (w', r) →
  (∃ e, m w = (w', inl e) ∧ r = inl e) ∨
  (∃ w1 x, m w = (w1, inr x) ∧ k x w1 = (w', r)).
Proof.
  py_unfold. destruct (m w) as [w1 [e|x]].
  - intros [= <- <-]. left. by exists e.
  - intros H. right. by exists w1, x.
Qed.

Lemma lift_inv {A : Type} (x : result A) w w' (r : result A) :
  lift x w = (w', r) → w' = w ∧ r = x.
Proof. py_unfold. by intros [= <- <-]. Qed.

End Forwarding.

(** ** The wrappers around a single request *)

Section Wrappers.
Context {B : Type}.
Variable json_dumps : value → result string.
Implicit Types (c : client B) (w : world B).

(** C10. [sqs_create_queue_dead_dependency] has three parameters, the
    client, the target's ARN and the queue's name, and for all of them the
    policy it builds has [maxReceiveCount] 3 and the one request it makes
    carries the same five attribute values around the serialised policy;
    when the policy cannot be serialised no request is made. *)
Theorem dead_dependency_fixed_attributes c (dep_arn name : value) w :
  redrive_policy dep_arn
    = VDict [("deadLetterTargetArn", dep_arn); ("maxReceiveCount", VInt 3)] ∧
  match json_dumps (redrive_policy dep_arn) with
  | inl e => sqs_create_queue_dead_dependency json_dumps c dep_arn name w = (w, inl e)
  | inr policy =>
      let request :=
        [("QueueName", or_default name QUEUE_MAIN);
         ("Attributes",
          VDict [("DelaySeconds", VStr "0");
                 ("MaximumMessageSize", VStr "262144");
                 ("VisibilityTimeout", VStr "30");
                 ("MessageRetentionPeriod", VStr "345680");
                 ("ReceiveMessageWaitTimeSeconds", VStr "0");
                 ("RedrivePolicy", VStr policy)])] in
      let '(b', r) := c "create_queue" request (backend w) in
      sqs_create_queue_dead_dependency json_dumps c dep_arn name w
        = (World b' (calls w ++ [Call "create_queue" request r]) (stdout w), r)
  end.
Proof.
  split; [reflexivity|].
  unfold sqs_create_queue_dead_dependency. py_unfold.
  destruct (json_dumps (redrive_policy dep_arn)) as [e|policy]; [reflexivity|].
  unfold invoke, dead_dependency_attributes.
  destruct (c "create_queue" _ (backend w)) as [b' [e|r]]; reflexivity.
Qed.

(** C3, as amended. [send_batch_messages] makes one [send_message_batch]
    request with the URL and the entries as given, and its outcome is the
    client's: the response with its per-entry lists when the client
    returns one, the client's exception when it raises. *)
Theorem send_batch_messages_forwards c (url msgs : value) w w' r :
  send_batch_messages c url msgs w = (w', r) →
  c "send_message_batch" [("QueueUrl", url); ("Entries", msgs)] (backend w)
    = (backend w', r) ∧
  calls w' = calls w ++
    [Call "send_message_batch" [("QueueUrl", url); ("Entries", msgs)] r] ∧
  stdout w' = stdout w.
Proof.
  unfold send_batch_messages. rewrite bind_ret. apply invoke_inv.
Qed.

(** C5, as amended. [change_message_visibility_timeout] checks nothing
    itself: its outcome, response or exception, is the outcome of the one
    [change_message_visibility] request it makes, so it raises exactly when
    the client does and with the client's exception. *)
Theorem change_visibility_outcome_is_clients c (url receipt : value)
    (timeout : option value) w :
  let request := [("QueueUrl", url); ("ReceiptHandle", receipt);
                  ("VisibilityTimeout", default (VInt 5) timeout)] in
  (change_message_visibility_timeout c url receipt timeout w).2
    = (c "change_message_visibility" request (backend w)).2 ∧
  backend (change_message_visibility_timeout c url receipt timeout w).1
    = (c "change_message_visibility" request (backend w)).1 ∧
  (∀ e, raises (change_message_visibility_timeout c url receipt timeout) w ∧
        (change_message_visibility_timeout c url receipt timeout w).2 = inl e
        ↔ (c "change_message_visibility" request (backend w)).2 = inl e).
Proof.
  intros request. unfold change_message_visibility_timeout, raises.
  rewrite bind_ret. unfold invoke. fold request.
  destruct (c "change_message_visibility" request (backend w)) as [b' r]; simpl.
  split_and!; [done..|]. intros e. split; [by intros [_ ?]|eauto].
Qed.


End Wrappers.

(** The main queue of the script's defaults on the empty reference service,
    with a target ARN given by hand. *)
Lemma dead_dependency_fixed_attributes_witness :
  let arn := VStr "arn:aws:sqs:test:elsewhere" in
  let run := sqs_create_queue_dead_dependency plain_dumps Fake.service arn VNone
               (Fake.start Fake.empty) in
  subscript (redrive_policy arn) "maxReceiveCount" = inr (VInt 3) ∧
  match args <$> calls run.1 with
  | [[("QueueName", name); ("Attributes", VDict attrs)]] =>
      name = VStr "main_queue" ∧
      dict_get "MessageRetentionPeriod" attrs = Some (VStr "345680") ∧
      length attrs = 6%nat
  | _ => False
  end.
Proof.
  intros arn run.
  destruct (dead_dependency_fixed_attributes plain_dumps Fake.service arn VNone
              (Fake.start Fake.empty)) as [Hpolicy _].
  split; [rewrite Hpolicy; reflexivity|]. vm_compute. done.
Defined.

(** An extension asked at 100 of a receipt that expired at 30, on the
    service that checks: the exception is the service's. *)
Lemma change_visibility_outcome_is_clients_witness :
  let c := Timed.service in
  (change_message_visibility_timeout c (VStr "q") (VStr "r") None
     (Timed.start 100 30)).2 = inl (ClientError "MessageNotInflight").
Proof.
  intros c.
  destruct (change_visibility_outcome_is_clients c (VStr "q") (VStr "r") None
              (Timed.start 100 30)) as (Ho & _).
  rewrite Ho. reflexivity.
Defined.

(** The service with a clock replaces. *)
Lemma timed_service_replaces :
  replaces_deadline Timed.clock Timed.deadline_of Timed.service.
Proof.
  intros a b b' resp r t. unfold Timed.service; simpl.
  unfold Timed.change_message_visibility. intros H Hr Ht. rewrite Hr, Ht in H.
  destruct r as [| |s| | | |]; try by inversion H.
  unfold Timed.deadline_of.
  destruct (String.eqb s "r"); simpl in H; [|by inversion H].
  destruct (_ <=? _); inversion H; subst; done.
Qed.

(** On it the visibility property holds as the specification has it. *)
Lemma timed_service_extension_replaces :
  extension_replaces_deadline Timed.service.
Proof.
  intros url t w w' resp _. unfold change_message_visibility_timeout.
  rewrite bind_ret. intros (Hb & _)%invoke_inv.
  pose proof (timed_service_replaces _ _ _ _ (VStr "r") t Hb eq_refl eq_refl) as H.
  by injection H.
Qed.

(** And it refuses a receipt that has expired, with an error other than the
    one for a receipt it does not know. *)
Lemma timed_service_refuses_expired :
  expired_receipt_refused Timed.service.
Proof.
  intros url t w Hexp. exists (ClientError "MessageNotInflight").
  unfold change_message_visibility_timeout. rewrite bind_ret.
  unfold invoke, Timed.service, Timed.change_message_visibility. simpl.
  by destruct (Z.leb_spec (Timed.deadline (backend w)) (Timed.clock (backend w))); [|lia].
Qed.

Lemma timed_service_unknown_receipt (url : value) (r : string) (t : Z)
    (w : world Timed.state) :
  r ≠ "r" →
  (change_message_visibility_timeout Timed.service url (VStr r) (Some (VInt t)) w).2
    = inl (ClientError "ReceiptHandleIsInvalid").
Proof.
  intros Hr%String.eqb_neq. unfold change_message_visibility_timeout.
  rewrite bind_ret. unfold invoke, Timed.service, Timed.change_message_visibility.
  simpl. by rewrite Hr.
Qed.


(** A batch of three on the reference service, the second entry with an empty
    body: the response the function returns is the service's, two entries
    successful and one failed. *)
Lemma send_batch_messages_forwards_witness :
  let b := (Fake.create_queue [("QueueName", VStr "q")] Fake.empty).1 in
  let entry (i body : string) := VDict [("Id", VStr i); ("MessageBody", VStr body)] in
  let run := send_batch_messages Fake.service (VStr (Fake.url_of "q"))
               (VList [entry "a" "one"; entry "b" ""; entry "c" "three"]) (Fake.start b) in
  length (calls run.1) = 1%nat ∧
  match run.2 with
  | inr resp => batch_results resp = Some (2%nat, 1%nat)
  | inl _ => False
  end.
Proof.
  intros b entry run.
  destruct (send_batch_messages_forwards Fake.service (VStr (Fake.url_of "q"))
              (VList [entry "a" "one"; entry "b" ""; entry "c" "three"])
              (Fake.start b) run.1 run.2) as (_ & Hcalls & _).
  - vm_compute. reflexivity.
  - split; [rewrite Hcalls; reflexivity | vm_compute; reflexivity].
Defined.

(** C3. On the reference service a batch of two whose second entry lacks its
    body is refused as a whole: the call raises and reports on no entry. *)
Lemma batch_with_malformed_entry_fails_whole :
  ¬ reports_each_entry Fake.service.
Proof.
  intros H.
  destruct (H (VStr (Fake.url_of "q"))
              [VDict [("Id", VStr "a"); ("MessageBody", VStr "one")];
               VDict [("Id", VStr "b")]]
              (Fake.start (Fake.create_queue [("QueueName", VStr "q")] Fake.empty).1))
    as (resp & Hr & _).
  - simpl. lia.
  - vm_compute. reflexivity.
  - vm_compute in Hr. discriminate Hr.
Qed.

(** C5. On the service with a clock an extension with a receipt that
    expired at 30, asked at time 100, fails, and the exception is the error of
    the service as the client raises it, of code [MessageNotInflight]: the
    script has no [ReceiptExpiredError] to raise in its place. *)
Lemma expired_receipt_fails_with_service_error :
  ¬ expired_receipt_error Timed.service.
Proof.
  intros H.
  destruct (H (VStr "q") 5 (Timed.start 100 30)) as (e & He & Hname).
  - simpl. lia.
  - vm_compute in He. injection He as <-. discriminate Hname.
Qed.

(** ** Deleting queues *)

Section Dicts.
Context {V : Type}.
Implicit Types (d : list (string * V)) (k : string).

Lemma dict_set_fresh k (v : V) d :
  dict_get k d = None → dict_set k v d = d ++ [(k, v)].
Proof.
  induction d as [|[k' v'] d IH]; simpl; [done|].
  destruct (String.eqb k k'); [done|]. intros H. by rewrite IH.
Qed.

Lemma dict_get_app_fresh k k' (v : V) d :
  k ≠ k' → dict_get k (d ++ [(k', v)]) = dict_get k d.
Proof.
  intros Hne. induction d as [|[k1 v1] d IH]; simpl.
  - by apply String.eqb_neq in Hne as ->.
  - by rewrite IH.
Qed.

Lemma dict_update_cons d k (v : V) e :
  dict_update d ((k, v) :: e) = dict_update (dict_set k v d) e.
Proof. reflexivity. Qed.

(** Updating with distinct keys that are all new appends them in order. *)
Lemma dict_update_fresh (ks : list string) (vs : list V) d :
  NoDup ks → length vs = length ks →
  (∀ k, k ∈ ks → dict_get k d = None) →
  dict_update d (zip ks vs) = d ++ zip ks vs.
Proof.
  intros Hnd. revert vs d.
  induction Hnd as [|k ks Hk Hnd IH]; intros vs d Hlen Hfresh.
  - simpl. by rewrite app_nil_r.
  - destruct vs as [|v vs]; [done|]. simpl in Hlen.
    simpl zip. rewrite dict_update_cons, dict_set_fresh by (apply Hfresh; left).
    rewrite IH; [by rewrite <-app_assoc|lia|].
    intros k' Hk'. rewrite dict_get_app_fresh.
    + apply Hfresh. by right.
    + intros ->. done.
Qed.

Lemma dict_has_zip (ks : list string) (vs : list V) k :
  length vs = length ks → (k ∈ ks ↔ dict_has k (zip ks vs) = true).
Proof.
  revert vs. induction ks as [|k' ks IH]; intros vs Hlen.
  - simpl. split; [by intros ?%elem_of_nil|done].
  - destruct vs as [|v vs]; [done|]. simpl in Hlen.
    unfold dict_has in *. simpl. destruct (String.eqb k k') eqn:E.
    + apply String.eqb_eq in E as ->. split; [done|intros _; left].
    + apply String.eqb_neq in E. rewrite elem_of_cons, <-IH by lia.
      split; [by intros [?|?]|by right].
Qed.

End Dicts.

Section Deleting.
Context {B : Type}.
Implicit Types (c : client B) (w : world B).

Lemma delete_each_returns c (urls : list string) (resp d : list (string * value)) w w' :
  delete_each c urls resp w = (w', inr d) →
  ∃ rs : list value,
    length rs = length urls ∧
    d = dict_update resp (zip urls rs) ∧
    calls w' = calls w ++ zip_with (fun u x => delete_call u (inr x)) urls rs ∧
    stdout w' = stdout w ∧
    backend w' = replay c (delete_request <$> urls) (backend w).
Proof.
  revert resp w. induction urls as [|u urls IH]; intros resp w; simpl.
  - py_unfold. intros [= <- <-]. exists []. by rewrite app_nil_r.
  - py_unfold. destruct (invoke c _ _ w) as [w1 [e|r]] eqn:Hinv; [done|].
    apply invoke_inv in Hinv as (Hb & Hc & Ho).
    intros (rs & Hlen & -> & Hcalls & Hout & Hback)%IH.
    exists (r :: rs). simpl. split_and!.
    + by rewrite Hlen.
    + done.
    + by rewrite Hcalls, Hc, <-app_assoc.
    + by rewrite Hout.
    + by rewrite Hback, Hb.
Qed.

Lemma delete_each_raises c (urls : list string) (resp : list (string * value)) w w' e :
  delete_each c urls resp w = (w', inl e) →
  ∃ (seen : list string) (rs : list value) (u : string) (rest : list string),
    urls = seen ++ u :: rest ∧
    length rs = length seen ∧
    calls w' = calls w ++ zip_with (fun u x => delete_call u (inr x)) seen rs
                       ++ [delete_call u (inl e)] ∧
    stdout w' = stdout w ∧
    backend w' = replay c (delete_request <$> seen ++ [u]) (backend w).
Proof.
  revert resp w. induction urls as [|u urls IH]; intros resp w; simpl.
  - py_unfold. done.
  - py_unfold. destruct (invoke c _ _ w) as [w1 [e1|r]] eqn:Hinv.
    + apply invoke_inv in Hinv as (Hb & Hc & Ho). intros [= <- <-].
      exists [], [], u, urls. simpl. by rewrite Hb.
    + apply invoke_inv in Hinv as (Hb & Hc & Ho).
      intros (seen & rs & u' & rest & -> & Hlen & Hcalls & Hout & Hback)%IH.
      exists (u :: seen), (r :: rs), u', rest. simpl. split_and!.
      * done.
      * by rewrite Hlen.
      * by rewrite Hcalls, Hc, <-app_assoc.
      * by rewrite Hout.
      * by rewrite Hback, Hb.
Qed.

(** C9. [sqs_delete_queue] on a string makes one request and its outcome
    is the client's; on a set it makes one request per URL and, when they
    all return, returns the dict that maps each URL of the set to the
    response of its request (when one raises, that is the last request
    made and the call raises with it); on anything else it raises
    [TypeError] and the world is as before: no request was made. *)
Theorem sqs_delete_queue_cases c (url : value) w w' (r : result value) :
  sqs_delete_queue c url w = (w', r) →
  match url with
  | VStr u =>
      c "delete_queue" [("QueueUrl", VStr u)] (backend w) = (backend w', r) ∧
      new_calls w w' = [delete_call u r]
  | VSet s =>
      match r with
      | inr d =>
          ∃ rs : list value,
            length rs = size s ∧
            d = VDict (zip (elements s) rs) ∧
            new_calls w w' = zip_with (fun u x => delete_call u (inr x)) (elements s) rs ∧
            (∀ u, u ∈ s ↔ dict_has u (zip (elements s) rs) = true)
      | inl e =>
          ∃ u, u ∈ s ∧ last (new_calls w w') = Some (delete_call u (inl e))
      end
  | _ =>
      w' = w ∧
      r = inl (TypeError "Must submit either a name as a string or a set object of names.")
  end.
Proof.
  unfold sqs_delete_queue. destruct url as [| |u| | |s|]; py_unfold;
    try (by intros [= <- <-]).
  - intros (Hb & Hc & _)%invoke_inv. split; [done|]. by apply new_calls_app.
  - destruct (delete_each c (elements s) [] w) as [w1 [e|d]] eqn:Hrun.
    + intros [= <- <-].
      apply delete_each_raises in Hrun
        as (seen & rs & u & rest & Hel & Hlen & Hcalls & _).
      exists u. split.
      * apply elem_of_elements. rewrite Hel. set_solver.
      * rewrite (new_calls_app _ _ _ Hcalls). by rewrite last_snoc.
    + intros [= <- <-].
      apply delete_each_returns in Hrun as (rs & Hlen & -> & Hcalls & _).
      exists rs. split_and!.
      * done.
      * rewrite dict_update_fresh; [done|apply NoDup_elements|done|done].
      * by apply new_calls_app.
      * intros u. rewrite <-dict_has_zip by done. by rewrite elem_of_elements.
Qed.

(** C6, as amended. A [sqs_delete_queue] that raises [TypeError] has made
    no request and leaves the world as it was.  When it raises because a
    request did, the requests that returned before it stay made: the log
    holds the deletions of the URLs visited so far, then the one that
    raised, and the service is in the state these requests leave. *)
Theorem sqs_delete_queue_failure c (url : value) w w' (e : exn) :
  sqs_delete_queue c url w = (w', inl e) →
  match url with
  | VStr u =>
      new_calls w w' = [delete_call u (inl e)] ∧
      backend w' = replay c [delete_request u] (backend w)
  | VSet s =>
      ∃ (seen : list string) (rs : list value) (u : string) (rest : list string),
        elements s = seen ++ u :: rest ∧
        length rs = length seen ∧
        new_calls w w' = zip_with (fun u x => delete_call u (inr x)) seen rs
                           ++ [delete_call u (inl e)] ∧
        backend w' = replay c (delete_request <$> seen ++ [u]) (backend w)
  | _ => w' = w
  end.
Proof.
  unfold sqs_delete_queue. destruct url as [| |u| | |s|]; py_unfold;
    try (by intros [= <- <-]).
  - intros (Hb & Hc & _)%invoke_inv. split; [by apply new_calls_app|].
    simpl. by rewrite Hb.
  - destruct (delete_each c (elements s) [] w) as [w1 [e1|d]] eqn:Hrun; [|done].
    intros [= <- <-].
    apply delete_each_raises in Hrun
      as (seen & rs & u & rest & Hel & Hlen & Hcalls & _ & Hback).
    exists seen, rs, u, rest. split_and!; [done..| |done].
    by apply new_calls_app.
Qed.

End Deleting.

(** Two queues on the reference service, deleted as a set. *)
Lemma sqs_delete_queue_cases_witness :
  let s : gset string := {[ Fake.url_of "a"; Fake.url_of "b" ]} in
  let b := (Fake.create_queue [("QueueName", VStr "b")]
              (Fake.create_queue [("QueueName", VStr "a")] Fake.empty).1).1 in
  ∃ (w' : world Fake.state) (d : value) (rs : list value),
    sqs_delete_queue Fake.service (VSet s) (Fake.start b) = (w', inr d) ∧
    length rs = size s ∧ d = VDict (zip (elements s) rs) ∧
    Fake.queues (backend w') = [].
Proof.
  intros s b.
  assert (∃ w' d, sqs_delete_queue Fake.service (VSet s) (Fake.start b) = (w', inr d)
                  ∧ Fake.queues (backend w') = [])
    as (w' & d & Hrun & Hq)
    by (do 2 eexists; split; [vm_compute; reflexivity|reflexivity]).
  destruct (sqs_delete_queue_cases Fake.service (VSet s) (Fake.start b) w' (inr d) Hrun)
    as (rs & Hlen & Hd & _).
  exists w', d, rs. split_and!; assumption.
Defined.

(** Of two URLs only the first names a queue of the reference service. *)
Lemma sqs_delete_queue_failure_witness :
  let s : gset string := {[ Fake.url_of "a"; Fake.url_of "b" ]} in
  let b := (Fake.create_queue [("QueueName", VStr "a")] Fake.empty).1 in
  ∃ (w' : world Fake.state) (e : exn) (seen : list string) (u : string),
    sqs_delete_queue Fake.service (VSet s) (Fake.start b) = (w', inl e) ∧
    (∃ rest, elements s = seen ++ u :: rest) ∧
    backend w' = replay Fake.service (delete_request <$> seen ++ [u]) b.
Proof.
  intros s b.
  assert (∃ w' e, sqs_delete_queue Fake.service (VSet s) (Fake.start b) = (w', inl e))
    as (w' & e & Hrun) by (do 2 eexists; vm_compute; reflexivity).
  destruct (sqs_delete_queue_failure Fake.service (VSet s) (Fake.start b) w' e Hrun)
    as (seen & rs & u & rest & Hel & _ & _ & Hback).
  exists w', e, seen, u. split_and!; [assumption|by exists rest|assumption].
Defined.

(** C6. On the reference service, with a queue at the first of two URLs and
    none at the second, [sqs_delete_queue] raises on the second URL after the
    queue at the first has been deleted: the failed call has changed the
    service. *)
Lemma failed_delete_leaves_earlier_deletions :
  ¬ failure_changes_nothing Fake.service.
Proof.
  intros H.
  set (b := (Fake.create_queue [("QueueName", VStr "a")] Fake.empty).1).
  set (run := sqs_delete_queue Fake.service
                (VSet {[ Fake.url_of "a"; Fake.url_of "b" ]}) (Fake.start b)).
  specialize (H (VSet {[ Fake.url_of "a"; Fake.url_of "b" ]}) (Fake.start b) run.1
                (ClientError "AWS.SimpleQueueService.NonExistentQueue")).
  assert (Fake.queues (backend run.1) = Fake.queues b) as Hq.
  { rewrite H; [reflexivity|]. vm_compute. reflexivity. }
  vm_compute in Hq. discriminate Hq.
Qed.


(** ** Draining a queue *)

Section Draining.
Context {B : Type}.
Variable py_repr : value → string.
Implicit Types (c : client B) (w : world B) (url m : value).

Lemma process_message_inv c url m w w' (r : result unit) :
  well_delivered m →
  process_message py_repr c url m w = (w', r) →
  ∃ o : result value,
    calls w' = calls w ++ [delete_message_call url m o] ∧
    stdout w' = stdout w ++ [processing_line py_repr m] ∧
    match o with inr _ => r = inr tt | inl e => r = inl e end.
Proof.
  intros (i & b & rh & Hi & Hb & Hr).
  unfold process_message, delete_message_from_queue, processing_line,
    delete_message_call, receipt_handle.
  rewrite Hi, Hb, Hr. py_unfold.
  destruct (invoke c _ _ _) as [w1 [e|x]] eqn:Hinv; intros [= <- <-];
    apply invoke_inv in Hinv as (_ & Hc & Ho); simpl in *;
    eexists; (split_and!; [exact Hc|exact Ho|done]).
Qed.

Lemma process_each_returns c url (ms : list value) w w' :
  Forall well_delivered ms →
  for_each ms (process_message py_repr c url) w = (w', inr tt) →
  ∃ rs : list value,
    length rs = length ms ∧
    calls w' = calls w ++ zip_with (fun m x => delete_message_call url m (inr x)) ms rs ∧
    stdout w' = stdout w ++ (processing_line py_repr <$> ms).
Proof.
  intros Hms. revert w. induction Hms as [|m ms Hm Hms IH]; intros w; simpl.
  - py_unfold. intros [= <-]. exists []. by rewrite !app_nil_r.
  - intros [(e & _ & [=]) | (w1 & [] & H1 & H2)]%bind_inv.
    apply process_message_inv in H1 as (o & Hc & Ho & Hr); [|done].
    destruct o as [e|x]; [done|].
    apply IH in H2 as (rs & Hlen & Hcalls & Hout).
    exists (x :: rs). simpl. split_and!.
    + by rewrite Hlen.
    + by rewrite Hcalls, Hc, <-app_assoc.
    + by rewrite Hout, Ho, <-app_assoc.
Qed.

Lemma process_each_raises c url (ms : list value) w w' (e : exn) :
  Forall well_delivered ms →
  for_each ms (process_message py_repr c url) w = (w', inl e) →
  ∃ (seen : list value) (rs : list value) (m : value) (rest : list value),
    ms = seen ++ m :: rest ∧
    length rs = length seen ∧
    calls w' = calls w ++ zip_with (fun m x => delete_message_call url m (inr x)) seen rs
                       ++ [delete_message_call url m (inl e)] ∧
    stdout w' = stdout w ++ (processing_line py_repr <$> seen ++ [m]).
Proof.
  intros Hms. revert w. induction Hms as [|m ms Hm Hms IH]; intros w; simpl.
  - py_unfold. done.
  - intros [(e' & H1 & [= <-]) | (w1 & [] & H1 & H2)]%bind_inv.
    + apply process_message_inv in H1 as (o & Hc & Ho & Hr); [|done].
      destruct o as [e'|x]; [|done]. injection Hr as <-.
      exists [], [], m, ms. done.
    + apply process_message_inv in H1 as (o & Hc & Ho & Hr); [|done].
      destruct o as [e'|x]; [done|].
      apply IH in H2 as (seen & rs & m' & rest & -> & Hlen & Hcalls & Hout).
      exists (m :: seen), (x :: rs), m', rest. simpl. split_and!.
      * done.
      * by rewrite Hlen.
      * by rewrite Hcalls, Hc, <-app_assoc.
      * by rewrite Hout, Ho, <-app_assoc.
Qed.

Lemma has_messages_list (objects : value) (ms : list value) :
  subscript objects "Messages" = inr (VList ms) →
  has_messages objects = inr (negb (Nat.eqb (length ms) 0)).
Proof.
  unfold has_messages. intros H.
  destruct objects as [| | | |d| |]; try done. simpl in *.
  unfold dict_has. destruct (dict_get "Messages" d) as [x|]; [|done].
  by injection H as ->.
Qed.

(** C1, as amended. [process_queue] takes a client and a URL and no
    handler.  It polls once, for up to ten messages, and for each message
    received, in order, prints its id and body and then requests its deletion
    with its receipt handle, whatever the message: when it returns, every
    message received has had its deletion requested; a message is left
    undeleted only when the request for an earlier one, or its own, raised. *)
Theorem process_queue_deletes_every_message c url w w' (r : result value)
    (b1 : B) (objects : value) (ms : list value) :
  c "receive_message" (poll_request url) (backend w) = (b1, inr objects) →
  subscript objects "Messages" = inr (VList ms) →
  Forall well_delivered ms →
  process_queue py_repr c url w = (w', r) →
  let poll := Call "receive_message" (poll_request url) (inr objects) in
  match r with
  | inr v =>
      v = VNone ∧
      ∃ rs : list value,
        length rs = length ms ∧
        new_calls w w' =
          poll :: zip_with (fun m x => delete_message_call url m (inr x)) ms rs ∧
        stdout w' = stdout w ++ (processing_line py_repr <$> ms)
  | inl e =>
      ∃ (seen : list value) (rs : list value) (m : value) (rest : list value),
        ms = seen ++ m :: rest ∧
        length rs = length seen ∧
        new_calls w w' =
          poll :: zip_with (fun m x => delete_message_call url m (inr x)) seen rs
               ++ [delete_message_call url m (inl e)] ∧
        stdout w' = stdout w ++ (processing_line py_repr <$> seen ++ [m])
  end.
Proof.
  intros Hpoll Hms Hwf. unfold process_queue, poll_queue.
  intros [(e & H1 & ->) | (w1 & objs & H1 & H2)]%bind_inv;
    rewrite bind_ret in H1; apply invoke_inv in H1 as (Hb & Hc & Ho);
    simpl in Hb; unfold poll_request in Hpoll; rewrite Hpoll in Hb; [done|].
  injection Hb as Hb <-.
  rewrite (has_messages_list _ _ Hms) in H2.
  apply bind_inv in H2 as [(e & [_ [=]]%lift_inv & _) | (w2 & go & [-> [= ->]]%lift_inv & H2)].
  destruct ms as [|m ms]; simpl in H2.
  - py_unfold. injection H2 as <- <-. split; [done|]. exists [].
    split_and!; [done| |by rewrite app_nil_r]. by apply new_calls_app.
  - rewrite Hms in H2. py_unfold. unfold py_iter in H2.
    destruct (for_each (m :: ms) _ w1) as [w2 [e|[]]] eqn:Hloop; injection H2 as <- <-.
    + apply process_each_raises in Hloop
        as (seen & rs & m' & rest & Hsplit & Hlen & Hcalls & Hout); [|done].
      exists seen, rs, m', rest. split_and!; [done..| |by rewrite Hout, Ho].
      apply new_calls_app. by rewrite Hcalls, Hc, <-app_assoc.
    + apply process_each_returns in Hloop as (rs & Hlen & Hcalls & Hout); [|done].
      split; [done|]. exists rs. split_and!; [done| |by rewrite Hout, Ho].
      apply new_calls_app. by rewrite Hcalls, Hc, <-app_assoc.
Qed.

End Draining.

(** ** Sending, receiving and deleting one message *)

Section RoundTrip.
Context {B : Type}.
Implicit Types (c : client B) (w : world B) (url msg receipt : value).

Lemma send_message_to_queue_inv c url msg w w' (r : result value) :
  send_message_to_queue c url msg w = (w', r) →
  (∃ e, r = inl e ∧ w' = w ∧
        (unpack msg = inl e ∨ ∃ kw, unpack msg = inr kw ∧ dict_has "QueueUrl" kw = true)) ∨
  (∃ kw, unpack msg = inr kw ∧ dict_has "QueueUrl" kw = false ∧
         c "send_message" (("QueueUrl", url) :: kw) (backend w) = (backend w', r) ∧
         calls w' = calls w ++ [Call "send_message" (("QueueUrl", url) :: kw) r]).
Proof.
  unfold send_message_to_queue.
  intros [(e & [-> He]%lift_inv & ->) | (w1 & kw & [-> He]%lift_inv & H)]%bind_inv.
  - left. exists e. eauto.
  - destruct (dict_has "QueueUrl" kw) eqn:Hdup.
    + py_unfold. injection H as <- <-. left. eexists. split_and!; [done..|]. eauto.
    + rewrite bind_ret in H. apply invoke_inv in H as (Hb & Hc & _).
      right. exists kw. eauto.
Qed.

(** C8, as amended. Sending a message, receiving, deleting with a receipt
    and receiving again through the functions of the script makes four
    requests on the same URL, the deletion carrying the receipt handle it was
    given; what the second receive returns is the answer of the service in the
    state the first three requests left it in.  Whether the message can be
    among it is decided there, not in the script. *)
Theorem round_trip_requests c url msg receipt w w1 w2 w3 w4
    (sent objects ack : value) (later : result value) :
  send_message_to_queue c url msg w = (w1, inr sent) →
  poll_queue c url None w1 = (w2, inr objects) →
  delete_message_from_queue c url receipt w2 = (w3, inr ack) →
  poll_queue c url None w3 = (w4, later) →
  ∃ kw : kwargs,
    unpack msg = inr kw ∧
    new_calls w w4 =
      [Call "send_message" (("QueueUrl", url) :: kw) (inr sent);
       Call "receive_message" (poll_request url) (inr objects);
       Call "delete_message" [("QueueUrl", url); ("ReceiptHandle", receipt)] (inr ack);
       Call "receive_message" (poll_request url) later] ∧
    backend w3 =
      replay c [("send_message", ("QueueUrl", url) :: kw);
                ("receive_message", poll_request url);
                ("delete_message", [("QueueUrl", url); ("ReceiptHandle", receipt)])]
             (backend w) ∧
    c "receive_message" (poll_request url) (backend w3) = (backend w4, later).
Proof.
  intros [(e & [=] & _) | (kw & Hkw & _ & Hb1 & Hc1)]%send_message_to_queue_inv H2 H3 H4.
  unfold poll_queue, delete_message_from_queue in *.
  rewrite bind_ret in H2, H3, H4.
  apply invoke_inv in H2 as (Hb2 & Hc2 & _).
  apply invoke_inv in H3 as (Hb3 & Hc3 & _).
  apply invoke_inv in H4 as (Hb4 & Hc4 & _).
  exists kw. split_and!; [done| | |done].
  - apply new_calls_app. rewrite Hc4, Hc3, Hc2, Hc1, <-!app_assoc. done.
  - unfold poll_request. simpl in *. rewrite Hb1. simpl. rewrite Hb2. simpl.
    by rewrite Hb3.
Qed.

End RoundTrip.

(** Two messages on the reference service: both are printed and deleted. *)
Lemma process_queue_deletes_every_message_witness :
  let url := VStr (Fake.url_of "q") in
  let w := Fake.start (queue_with ["one"; "two"]) in
  ∃ (w' : world Fake.state),
    process_queue plain_repr Fake.service url w = (w', inr VNone) ∧
    meth <$> new_calls w w' = ["receive_message"; "delete_message"; "delete_message"] ∧
    stdout w' = ["Processing message: m0; body: one";
                 "Processing message: m1; body: two"].
Proof.
  intros url w.
  set (m1 := VDict [("MessageId", VStr "m0"); ("ReceiptHandle", VStr "m0#1");
                    ("Body", VStr "one")]).
  set (m2 := VDict [("MessageId", VStr "m1"); ("ReceiptHandle", VStr "m1#1");
                    ("Body", VStr "two")]).
  assert (Fake.service "receive_message" (poll_request url) (backend w)
          = ((Fake.service "receive_message" (poll_request url) (backend w)).1,
             inr (VDict [("Messages", VList [m1; m2])]))) as Hpoll
    by (vm_compute; reflexivity).
  assert (Forall well_delivered [m1; m2]) as Hwf
    by (repeat (apply List.Forall_cons; [by do 3 eexists|]); apply List.Forall_nil).
  assert (∃ w', process_queue plain_repr Fake.service url w = (w', inr VNone))
    as [w' Hrun] by (eexists; vm_compute; reflexivity).
  destruct (process_queue_deletes_every_message plain_repr Fake.service url w w'
              (inr VNone) _ _ [m1; m2] Hpoll eq_refl Hwf Hrun)
    as (_ & rs & Hlen & Hcalls & Hout).
  exists w'. split_and!; [assumption| |rewrite Hout; reflexivity].
  rewrite Hcalls. destruct rs as [|x [|y [|z rs]]]; try discriminate Hlen. reflexivity.
Defined.

(** C1. On the reference service with one message in the queue,
    [process_queue] requests the deletion of the message it received, and no
    handler was asked: it has none to ask. *)
Lemma process_queue_deletes_without_handler :
  ¬ deletes_only_processed (process_queue plain_repr (B := Fake.state)).
Proof.
  intros H.
  apply (H (fun _ => false) Fake.service (VStr (Fake.url_of "q"))
           (Fake.start (queue_with ["one"])) (fun _ => eq_refl)
           (delete_message_call (VStr (Fake.url_of "q"))
              (VDict [("ReceiptHandle", VStr "m0#1")]) (inr (VDict [])))).
  - vm_compute. right. left.
  - reflexivity.
Qed.

(** A message sent, received and deleted on the reference service: the
    second receive returns no message. *)
Lemma round_trip_requests_witness :
  let url := VStr (Fake.url_of "q") in
  let c := Fake.service in
  let w := Fake.start (queue_with []) in
  let r1 := send_message_to_queue c url (VDict [("MessageBody", VStr "one")]) w in
  let r2 := poll_queue c url None r1.1 in
  let r3 := delete_message_from_queue c url (VStr "m0#1") r2.1 in
  let r4 := poll_queue c url None r3.1 in
  r1.2 = inr (VDict [("MessageId", VStr "m0")]) ∧
  r4.2 = inr (VDict []) ∧
  length (new_calls w r4.1) = 4%nat.
Proof.
  intros url c w r1 r2 r3 r4.
  set (m := VDict [("MessageId", VStr "m0"); ("ReceiptHandle", VStr "m0#1");
                   ("Body", VStr "one")]).
  destruct (round_trip_requests c url (VDict [("MessageBody", VStr "one")])
              (VStr "m0#1") w r1.1 r2.1 r3.1 r4.1
              (VDict [("MessageId", VStr "m0")]) (VDict [("Messages", VList [m])])
              (VDict []) r4.2)
    as (kw & _ & Hcalls & _); try (vm_compute; reflexivity).
  split_and!; [vm_compute; reflexivity..|]. rewrite Hcalls. reflexivity.
Defined.

(** C8. On a replica of the reference service that misses the deletion, the
    message sent, received and deleted with the receipt of its delivery is
    returned by the next receive. *)
Lemma stale_replica_delivers_again :
  ¬ deleted_not_received_again Fake.stale_replica.
Proof.
  intros H.
  set (c := Fake.stale_replica). set (url := VStr (Fake.url_of "q")).
  set (r1 := send_message_to_queue c url (VDict [("MessageBody", VStr "one")])
               (Fake.start (queue_with []))).
  set (r2 := poll_queue c url None r1.1).
  set (r3 := delete_message_from_queue c url (VStr "m0#1") r2.1).
  set (r4 := poll_queue c url None r3.1).
  set (m := VDict [("MessageId", VStr "m0"); ("ReceiptHandle", VStr "m0#1");
                   ("Body", VStr "one")]).
  apply (H url (VDict [("MessageBody", VStr "one")]) (Fake.start (queue_with []))
           r1.1 r2.1 r3.1 r4.1
           (VDict [("MessageId", VStr "m0")]) (VDict [("Messages", VList [m])])
           m (VStr "m0") (VStr "m0#1") (VDict [])
           (VDict [("Messages",
                    VList [VDict [("MessageId", VStr "m0");
                                  ("ReceiptHandle", VStr "m0#2");
                                  ("Body", VStr "one")]])]));
    try (vm_compute; reflexivity).
  vm_compute. left.
Qed.

(** ** What requests a computation can make *)

Section Requests.
Context {B : Type}.
Implicit Types (c : client B) (w : world B) (P : call → Prop).

Lemma issues_only_ret {A : Type} P (x : A) : issues_only (B := B) P (mret x).
Proof. intros w w' r [= <- <-]. exists []. by rewrite app_nil_r. Qed.

Lemma issues_only_lift {A : Type} P (x : result A) : issues_only (B := B) P (lift x).
Proof. intros w w' r [= <- <-]. exists []. by rewrite app_nil_r. Qed.

Lemma issues_only_raise {A : Type} P (e : exn) : issues_only (B := B) (A := A) P (raise e).
Proof. intros w w' r [= <- <-]. exists []. by rewrite app_nil_r. Qed.

Lemma issues_only_print P (line : string) : issues_only (B := B) P (print line).
Proof. intros w w' r [= <- <-]. exists []. by rewrite app_nil_r. Qed.

Lemma issues_only_invoke P c (m : string) (a : kwargs) :
  (∀ o, P (Call m a o)) → issues_only P (invoke c m a).
Proof.
  intros HP w w' r (_ & Hc & _)%invoke_inv. exists [Call m a r]. split; [done|].
  by apply Forall_singleton.
Qed.

Lemma issues_only_bind {A C : Type} P (m : py B A) (k : A → py B C) :
  issues_only P m → (∀ x, issues_only P (k x)) → issues_only P (x ← m; k x).
Proof.
  intros Hm Hk w w' r [(e & H1 & ->) | (w1 & x & H1 & H2)]%bind_inv.
  - by eapply Hm.
  - destruct (Hm _ _ _ H1) as (l1 & Hc1 & Hl1), (Hk x _ _ _ H2) as (l2 & Hc2 & Hl2).
    exists (l1 ++ l2). split; [by rewrite Hc2, Hc1, <-app_assoc|].
    by apply Forall_app.
Qed.

Lemma issues_only_for_each {A : Type} P (xs : list A) (body : A → py B unit) :
  (∀ x, issues_only P (body x)) → issues_only P (for_each xs body).
Proof.
  intros Hbody. induction xs as [|x xs IH]; simpl.
  - apply issues_only_ret.
  - apply issues_only_bind; [apply Hbody|]. intros _. apply IH.
Qed.

End Requests.

Ltac issues_only_steps :=
  repeat first
    [ apply issues_only_ret
    | apply issues_only_lift
    | apply issues_only_raise
    | apply issues_only_print
    | apply issues_only_invoke; intros ?; simpl; discriminate
    | apply issues_only_for_each; intros ?
    | apply issues_only_bind; [|intros ?]
    | match goal with
      | |- issues_only _ (if ?b then _ else _) => destruct b
      end ].

(** ** The script *)

Section Main.
Context {B : Type}.
Variable json_dumps : value → result string.
Variable py_repr : value → string.
Implicit Types (c resource : client B) (w : world B) (k : call).

Lemma process_queue_requests c (url : value) :
  issues_only (fun k => meth k ≠ "create_queue") (process_queue py_repr c url).
Proof.
  unfold process_queue, poll_queue, process_message, delete_message_from_queue.
  issues_only_steps.
Qed.

Lemma main_messages_requests c (url : value) (now : string) (uuid1 : nat → string) :
  issues_only (fun k => meth k ≠ "create_queue")
    (main_messages json_dumps py_repr c url now uuid1).
Proof.
  unfold main_messages, send_message_to_queue, send_batch_messages, print_json.
  issues_only_steps.
Qed.

Lemma not_carrying_other k : meth k ≠ "create_queue" → ¬ carries_redrive_policy k.
Proof. by intros H [? _]. Qed.

Lemma not_carrying_plain (n : value) (o : result value) :
  ¬ carries_redrive_policy (Call "create_queue" [("QueueName", n)] o).
Proof. intros (_ & attrs & p & [=] & _). Qed.

Lemma not_carrying_fifo (n : value) (o : result value) :
  ¬ carries_redrive_policy
      (Call "create_queue"
         [("QueueName", n); ("Attributes", VDict [("FifoQueue", VStr "true")])] o).
Proof. intros (_ & attrs & p & [= <-] & [=]). Qed.

Lemma get_queue_arn_inv resource (target : value) w w' (r : result value) :
  get_queue_arn resource target w = (w', r) →
  ∃ o, resource "get_queue_by_name" (lookup_request target) (backend w) = (backend w', o) ∧
       r = resolved_arn o ∧
       calls w' = calls w ++ [Call "get_queue_by_name" (lookup_request target) o].
Proof.
  unfold get_queue_arn, resolved_arn.
  intros [(e & (Hb & Hc & _)%invoke_inv & ->) | (w1 & queue & (Hb & Hc & _)%invoke_inv & H)]%bind_inv.
  - by exists (inl e).
  - exists (inr queue). py_unfold.
    destruct (getattr queue "attributes") as [e|attributes]; [by injection H as <- <-|].
    destruct (subscript attributes "QueueArn"); by injection H as <- <-.
Qed.

Lemma create_queue_with_dead_letter_inv c resource (target name : value) w w'
    (r : result value) :
  create_queue_with_dead_letter json_dumps c resource target name w = (w', r) →
  ∃ (o : result value) (b1 : B),
    resource "get_queue_by_name" (lookup_request target) (backend w) = (b1, o) ∧
    let lookup := Call "get_queue_by_name" (lookup_request target) o in
    match resolved_arn o with
    | inl e => r = inl e ∧ calls w' = calls w ++ [lookup] ∧ backend w' = b1
    | inr arn =>
        match json_dumps (redrive_policy arn) with
        | inl e => r = inl e ∧ calls w' = calls w ++ [lookup] ∧ backend w' = b1
        | inr policy =>
            c "create_queue" (dependent_request name policy) b1 = (backend w', r) ∧
            calls w' = calls w ++
              [lookup; Call "create_queue" (dependent_request name policy) r]
        end
    end.
Proof.
  unfold create_queue_with_dead_letter.
  intros [(e & (o & Hb & He & Hc)%get_queue_arn_inv & ->)
         | (w1 & arn & (o & Hb & He & Hc)%get_queue_arn_inv & H)]%bind_inv.
  - exists o, (backend w'). split; [done|]. simpl. by rewrite <-He.
  - exists o, (backend w1). split; [done|]. simpl. rewrite <-He.
    unfold sqs_create_queue_dead_dependency in H. py_unfold.
    destruct (json_dumps (redrive_policy arn)) as [e|policy].
    + by injection H as <- <-.
    + fold (dependent_request name policy) in H.
      destruct (invoke c _ _ w1) as [w2 [e|x]] eqn:Hinv; injection H as <- <-;
        apply invoke_inv in Hinv as (Hb2 & Hc2 & _);
        (split; [done|by rewrite Hc2, Hc, <-app_assoc]).
Qed.

(** C2, as amended. Creating a queue with a dead-letter target, as line
    322 does, looks the target up by name and then makes the create request
    with the policy.  It raises when the lookup raises or yields no
    ['QueueArn'], when the policy cannot be serialised, or when the create
    request raises, each time with that exception, and in no other case; the
    receive count of the policy is 3 whatever the arguments, and is not
    checked. *)
Theorem create_queue_with_dead_letter_outcome c resource (target name : value) w w'
    (r : result value) :
  create_queue_with_dead_letter json_dumps c resource target name w = (w', r) →
  let found := resource "get_queue_by_name" (lookup_request target) (backend w) in
  let lookup := Call "get_queue_by_name" (lookup_request target) found.2 in
  match resolved_arn found.2 with
  | inl e => r = inl e ∧ new_calls w w' = [lookup]
  | inr arn =>
      subscript (redrive_policy arn) "deadLetterTargetArn" = inr arn ∧
      subscript (redrive_policy arn) "maxReceiveCount" = inr (VInt 3) ∧
      match json_dumps (redrive_policy arn) with
      | inl e => r = inl e ∧ new_calls w w' = [lookup]
      | inr policy =>
          c "create_queue" (dependent_request name policy) found.1 = (backend w', r) ∧
          new_calls w w' =
            [lookup; Call "create_queue" (dependent_request name policy) r]
      end
  end.
Proof.
  intros (o & b1 & Hfound & H)%create_queue_with_dead_letter_inv.
  rewrite Hfound. simpl in *.
  destruct (resolved_arn o) as [e|arn].
  - destruct H as (-> & Hc & _). split; [done|]. by apply new_calls_app.
  - split_and!; [done..|].
    destruct (json_dumps (redrive_policy arn)) as [e|policy].
    + destruct H as (-> & Hc & _). split; [done|]. by apply new_calls_app.
    + destruct H as (Hb & Hc). split; [done|]. by apply new_calls_app.
Qed.

Lemma lift_calls {A : Type} (x : result A) w w' (r : result A) :
  lift x w = (w', r) → calls w' = calls w.
Proof. by intros [-> _]%lift_inv. Qed.

Lemma set_add_calls (s : list value) (x : value) w w' (r : result (list value)) :
  set_add s x w = (w', r) → calls w' = calls w.
Proof. unfold set_add. destruct (hashable x); by intros [= <- <-]. Qed.

Lemma print_json_calls (x : value) w w' (r : result unit) :
  print_json json_dumps x w = (w', r) → calls w' = calls w.
Proof.
  unfold print_json. py_unfold.
  destruct (json_dumps x); by intros [= <- <-].
Qed.

Lemma sqs_create_queue_calls c (name : value) w w' (r : result value) :
  sqs_create_queue c name w = (w', r) →
  calls w' = calls w ++ [Call "create_queue" [("QueueName", or_default name QUEUE_NAME)] r].
Proof.
  unfold sqs_create_queue. rewrite bind_ret. by intros (_ & Hc & _)%invoke_inv.
Qed.

Lemma sqs_create_fifo_queue_calls c (name : value) w w' (r : result value) :
  sqs_create_fifo_queue c name w = (w', r) →
  calls w' = calls w ++
    [Call "create_queue"
       [("QueueName", or_default name QUEUE_NAME_FIFO);
        ("Attributes", VDict [("FifoQueue", VStr "true")])] r].
Proof.
  unfold sqs_create_fifo_queue. rewrite bind_ret. by intros (_ & Hc & _)%invoke_inv.
Qed.

(** One statement of the script: [H] is the run from here on and [Hc] the
    requests made so far.  The first goal left is the one where the statement
    raised, with the requests of the whole run in [Hs]. *)
Ltac advance H Hc lem :=
  let Hs := fresh "Hs" in
  apply bind_inv in H as [(? & Hs & ->) | (? & ? & Hs & H)];
  apply lem in Hs; rewrite Hc in Hs; rewrite <-?app_assoc in Hs; simpl in Hs;
  [ | clear Hc; rename Hs into Hc ].

Ltac no_policy_so_far Hs :=
  eexists; split; [exact Hs|]; left;
  repeat (apply List.Forall_cons;
          [first [ apply not_carrying_plain | apply not_carrying_fifo
                 | apply not_carrying_other; simpl; discriminate ]|]);
  apply List.Forall_nil.

(** The requests of the first part of the script: either none of them
    creates a queue with a redrive policy, or they are the creation of the
    three queues, the lookup of the dead-letter queue, which returned, and
    the creation of the main queue with the policy made from its ARN. *)
Lemma main_queues_requests c resource w w' (r : result (value * list value)) :
  main_queues json_dumps c resource w = (w', r) →
  ∃ l, calls w' = calls w ++ l ∧
    (Forall (fun k => ¬ carries_redrive_policy k) l ∨
     ∃ (before : list call) (dead queue arn : value) (policy : string) (o : result value),
       l = before ++
           [Call "create_queue" [("QueueName", VStr QUEUE_NAME_DEAD)] (inr dead);
            Call "get_queue_by_name" [("QueueName", VStr QUEUE_NAME_DEAD)] (inr queue);
            Call "create_queue" (dependent_request (VStr QUEUE_MAIN) policy) o] ∧
       Forall (fun k => ¬ carries_redrive_policy k) before ∧
       resolved_arn (inr queue) = inr arn ∧
       json_dumps (redrive_policy arn) = inr policy).
Proof.
  unfold main_queues. intros H.
  apply bind_inv in H as [(e & Hc & ->) | (w1 & reg & Hc & H)];
    apply sqs_create_queue_calls in Hc; simpl in Hc; [no_policy_so_far Hc|].
  advance H Hc @lift_calls; [no_policy_so_far Hs|].
  advance H Hc set_add_calls; [no_policy_so_far Hs|].
  advance H Hc print_json_calls; [no_policy_so_far Hs|].
  advance H Hc sqs_create_fifo_queue_calls; [no_policy_so_far Hs|].
  advance H Hc @lift_calls; [no_policy_so_far Hs|].
  advance H Hc set_add_calls; [no_policy_so_far Hs|].
  advance H Hc print_json_calls; [no_policy_so_far Hs|].
  advance H Hc sqs_create_queue_calls; [no_policy_so_far Hs|].
  advance H Hc @lift_calls; [no_policy_so_far Hs|].
  advance H Hc set_add_calls; [no_policy_so_far Hs|].
  advance H Hc print_json_calls; [no_policy_so_far Hs|].
  match type of H with
  | _ ?wc = _ =>
      assert (∃ w5 rm, create_queue_with_dead_letter json_dumps c resource
                         (VStr QUEUE_NAME_DEAD) (VStr QUEUE_MAIN) wc = (w5, rm)
                       ∧ calls w5 = calls w')
        as (w5 & rm & Hrun & Hrest)
  end.
  { apply bind_inv in H as [(e & Hs & ->) | (w5 & rm & Hs & H)].
    - by exists w', (inl e).
    - exists w5, (inr rm). split; [done|].
      apply bind_inv in H as [(e & Hs1%lift_calls & ->) | (? & ? & Hs1%lift_calls & H)];
        [done|].
      apply bind_inv in H as [(e & Hs2%set_add_calls & ->) | (? & ? & Hs2%set_add_calls & H)];
        [congruence|].
      apply bind_inv in H as [(e & Hs3%print_json_calls & ->) | (? & ? & Hs3%print_json_calls & H)];
        [congruence|].
      injection H as <- _. congruence. }
  apply create_queue_with_dead_letter_inv in Hrun as (o & b1 & _ & Hrun). simpl in Hrun.
  destruct o as [e|queue].
  { simpl in Hrun. destruct Hrun as (_ & Hs & _). rewrite Hrest, Hc in Hs.
    rewrite <-app_assoc in Hs. simpl in Hs. no_policy_so_far Hs. }
  destruct (resolved_arn (inr queue)) as [e|arn] eqn:Harn.
  { destruct Hrun as (_ & Hs & _). rewrite Hrest, Hc in Hs.
    rewrite <-app_assoc in Hs. simpl in Hs. no_policy_so_far Hs. }
  destruct (json_dumps (redrive_policy arn)) as [e|policy] eqn:Hpolicy.
  { destruct Hrun as (_ & Hs & _). rewrite Hrest, Hc in Hs.
    rewrite <-app_assoc in Hs. simpl in Hs. no_policy_so_far Hs. }
  destruct Hrun as (_ & Hs). rewrite Hrest, Hc in Hs.
  rewrite <-app_assoc in Hs. simpl in Hs.
  eexists. split; [exact Hs|]. right.
  eexists [_; _], _, queue, arn, policy, rm. split_and!; [reflexivity| |done..].
  repeat (apply List.Forall_cons; [first [apply not_carrying_plain|apply not_carrying_fifo]|]).
  apply List.Forall_nil.
Qed.

(** C7, as amended. In a run of the script, a request that creates a
    queue with a redrive policy comes after the request that created the
    dead-letter queue has returned and, right before it, the lookup of that
    queue by name has returned; the target of its policy is the ['QueueArn']
    that lookup gave.  It is the only such request of the run. *)
Theorem main_creates_dead_letter_queue_first c resource (now : string)
    (uuid1 : nat → string) w w' (r : result unit) k :
  main json_dumps py_repr c resource now uuid1 w = (w', r) →
  k ∈ new_calls w w' →
  carries_redrive_policy k →
  ∃ (before : list call) (dead queue arn : value) (policy : string) (rest : list call),
    new_calls w w' =
      before ++
      [Call "create_queue" [("QueueName", VStr QUEUE_NAME_DEAD)] (inr dead);
       Call "get_queue_by_name" [("QueueName", VStr QUEUE_NAME_DEAD)] (inr queue);
       k] ++ rest ∧
    resolved_arn (inr queue) = inr arn ∧
    subscript (redrive_policy arn) "deadLetterTargetArn" = inr arn ∧
    json_dumps (redrive_policy arn) = inr policy ∧
    args k = dependent_request (VStr QUEUE_MAIN) policy ∧
    Forall (fun k' => ¬ carries_redrive_policy k') (before ++ rest).
Proof.
  unfold main. intros H Hk Hcarry.
  assert (∃ l t, calls w' = calls w ++ l ++ t ∧
            (Forall (fun k => ¬ carries_redrive_policy k) l ∨
             ∃ (before : list call) (dead queue arn : value) (policy : string)
               (o : result value),
               l = before ++
                   [Call "create_queue" [("QueueName", VStr QUEUE_NAME_DEAD)] (inr dead);
                    Call "get_queue_by_name" [("QueueName", VStr QUEUE_NAME_DEAD)]
                      (inr queue);
                    Call "create_queue" (dependent_request (VStr QUEUE_MAIN) policy) o] ∧
               Forall (fun k => ¬ carries_redrive_policy k) before ∧
               resolved_arn (inr queue) = inr arn ∧
               json_dumps (redrive_policy arn) = inr policy) ∧
            Forall (fun k => ¬ carries_redrive_policy k) t)
    as (l & t & Hcalls & Hl & Ht).
  { apply bind_inv in H as [(e & H1 & ->) | (w1 & queues & H1 & H2)].
    - apply main_queues_requests in H1 as (l & Hc & Hl).
      exists l, []. rewrite app_nil_r. split_and!; [done..|apply List.Forall_nil].
    - apply main_queues_requests in H1 as (l & Hc & Hl).
      apply main_messages_requests in H2 as (t & Hc2 & Ht).
      exists l, t. split_and!; [by rewrite Hc2, Hc, <-app_assoc|done|].
      eapply Forall_impl; [exact Ht|]. intros k'. apply not_carrying_other. }
  rewrite (new_calls_app _ _ _ Hcalls) in Hk |- *.
  destruct Hl as [Hl | (before & dead & queue & arn & policy & o & -> & Hbefore & Harn & Hpolicy)].
  - exfalso. apply elem_of_app in Hk as [Hk|Hk].
    + by eapply (proj1 (Forall_forall _ _) Hl).
    + by eapply (proj1 (Forall_forall _ _) Ht).
  - rewrite <-app_assoc in Hk |- *.
    assert (k = Call "create_queue" (dependent_request (VStr QUEUE_MAIN) policy) o) as ->.
    { apply elem_of_app in Hk as [Hk|Hk];
        [exfalso; by eapply (proj1 (Forall_forall _ _) Hbefore)|].
      apply elem_of_app in Hk as [Hk|Hk];
        [|exfalso; by eapply (proj1 (Forall_forall _ _) Ht)].
      apply elem_of_cons in Hk as [->|Hk]; [by apply not_carrying_plain in Hcarry|].
      apply elem_of_cons in Hk as [->|Hk];
        [by apply not_carrying_other in Hcarry|].
      by apply list_elem_of_singleton in Hk. }
    exists before, dead, queue, arn, policy, t.
    split_and!; [done..|]. by apply Forall_app.
Qed.

End Main.

(** The main queue of the script created on the reference service, where
    the dead-letter queue exists. *)
Lemma create_queue_with_dead_letter_outcome_witness :
  let w := Fake.start with_dead_queue in
  let run := create_queue_with_dead_letter plain_dumps Fake.service Fake.service
               (VStr QUEUE_NAME_DEAD) (VStr QUEUE_MAIN) w in
  run.2 = inr (VDict [("QueueUrl", VStr (Fake.url_of QUEUE_MAIN))]) ∧
  meth <$> new_calls w run.1 = ["get_queue_by_name"; "create_queue"].
Proof.
  intros w run.
  pose proof (create_queue_with_dead_letter_outcome plain_dumps Fake.service
                Fake.service (VStr QUEUE_NAME_DEAD) (VStr QUEUE_MAIN) w run.1 run.2) as H.
  cbv zeta in H.
  assert (resolved_arn (Fake.service "get_queue_by_name"
                          (lookup_request (VStr QUEUE_NAME_DEAD)) (backend w)).2
          = inr (VStr (Fake.arn_of QUEUE_NAME_DEAD))) as Harn
    by (vm_compute; reflexivity).
  rewrite Harn in H.
  assert (plain_dumps (redrive_policy (VStr (Fake.arn_of QUEUE_NAME_DEAD)))
          = inr (match plain_dumps (redrive_policy (VStr (Fake.arn_of QUEUE_NAME_DEAD))) with
                 | inr p => p
                 | inl _ => ""
                 end)) as Hp by (vm_compute; reflexivity).
  rewrite Hp in H.
  destruct H as (_ & _ & _ & Hcalls); [vm_compute; reflexivity|].
  split; [vm_compute; reflexivity|]. rewrite Hcalls. reflexivity.
Defined.

(** C2. On the reference service the dead-letter queue exists and
    resolves, the policy carries 3, and yet the creation fails: a queue of
    the name was deleted a moment ago. *)
Lemma attach_fails_for_another_reason :
  ¬ attach_fails_only_as_specified plain_dumps Fake.service Fake.service.
Proof.
  intros H.
  destruct (H (VStr QUEUE_NAME_DEAD) (VStr QUEUE_MAIN) 3
              (Fake.start main_deleted_recently) eq_refl) as [H1 _].
  destruct H1 as [[e He] | Hlt].
  - eexists. vm_compute. reflexivity.
  - vm_compute in He. discriminate He.
  - lia.
Qed.

(** C7. [sqs_create_queue_dead_dependency] takes the ARN it is given: on
    the empty reference service, with an ARN that no queue has, it creates a
    queue with a redrive policy in the one request it makes; no queue was
    created before and no name was looked up. *)
Lemma dead_dependency_takes_any_arn :
  ¬ dead_letter_queue_resolved_first plain_dumps
      (sqs_create_queue_dead_dependency plain_dumps Fake.service
         (VStr "arn:aws:sqs:test:elsewhere") VNone).
Proof.
  intros H.
  set (w := Fake.start Fake.empty).
  set (run := sqs_create_queue_dead_dependency plain_dumps Fake.service
                (VStr "arn:aws:sqs:test:elsewhere") VNone w).
  destruct (new_calls w run.1) as [|k l] eqn:Hcalls; [vm_compute in Hcalls; discriminate Hcalls|].
  assert (length (new_calls w run.1) = 1%nat) as Hlen by (vm_compute; reflexivity).
  assert (carries_redrive_policy k) as Hcarry.
  { vm_compute in Hcalls. injection Hcalls as <- _.
    split; [reflexivity|]. eexists _, _. split; reflexivity. }
  destruct (H w run.1 run.2 k) as (before & rest & target & queue & arn & policy & Hsplit & _).
  - vm_compute. reflexivity.
  - rewrite Hcalls. left.
  - exact Hcarry.
  - rewrite Hcalls in Hlen, Hsplit. rewrite Hsplit in Hlen.
    rewrite !length_app in Hlen. simpl in Hlen. lia.
Qed.

(** The script on the reference service, empty at first: the fifth request
    creates the main queue with the policy, after the creation and the lookup
    of the dead-letter queue. *)
Lemma main_creates_dead_letter_queue_first_witness :
  let w := Fake.start Fake.empty in
  let run := main plain_dumps plain_repr Fake.service Fake.service
               "2026-01-01 00:00:00" (fun i => "id" +:+ pretty i) w in
  ∃ (k : call) (before : list call) (dead queue arn : value) (rest : list call),
    new_calls w run.1 !! 4%nat = Some k ∧
    carries_redrive_policy k ∧
    new_calls w run.1 =
      before ++
      [Call "create_queue" [("QueueName", VStr QUEUE_NAME_DEAD)] (inr dead);
       Call "get_queue_by_name" [("QueueName", VStr QUEUE_NAME_DEAD)] (inr queue);
       k] ++ rest ∧
    resolved_arn (inr queue) = inr arn ∧
    subscript (redrive_policy arn) "deadLetterTargetArn" = inr arn.
Proof.
  intros w run.
  set (p := match plain_dumps (redrive_policy (VStr (Fake.arn_of QUEUE_NAME_DEAD))) with
            | inr p => p
            | inl _ => ""
            end).
  set (k := Call "create_queue" (dependent_request (VStr QUEUE_MAIN) p)
              (inr (VDict [("QueueUrl", VStr (Fake.url_of QUEUE_MAIN))]))).
  assert (carries_redrive_policy k) as Hcarry.
  { split; [reflexivity|]. eexists _, _. split; reflexivity. }
  destruct (main_creates_dead_letter_queue_first plain_dumps plain_repr Fake.service
              Fake.service "2026-01-01 00:00:00" (fun i => "id" +:+ pretty i)
              w run.1 run.2 k)
    as (before & dead & queue & arn & policy & rest & Hcalls & Harn & Htarget & _).
  - vm_compute. reflexivity.
  - vm_compute. do 4 right. left.
  - exact Hcarry.
  - exists k, before, dead, queue, arn, rest.
    split_and!; [vm_compute; reflexivity|assumption..].
Defined.

(** * The rest of the script *)

(** ** Draining: the edges *)

Section DrainingEdges.
Context {B : Type}.
Variable py_repr : value → string.
Implicit Types (c : client B) (w : world B) (url m : value).

Lemma for_each_app {A : Type} (xs ys : list A) (body : A → py B unit) w :
  for_each (xs ++ ys) body w = (_ ← for_each xs body; for_each ys body) w.
Proof.
  revert w. induction xs as [|x xs IH]; intros w; simpl.
  - reflexivity.
  - py_unfold. destruct (body x w) as [w1 [e|[]]]; [reflexivity|]. apply IH.
Qed.

(** X1. When the response to the poll is a dict without ['Messages'], or
    with an empty one, [process_queue] has made the poll and nothing else: no
    deletion is requested, nothing is printed, and it returns [None]. *)
Theorem process_queue_nothing_received c url w (b1 : B) (d : list (string * value)) :
  c "receive_message" (poll_request url) (backend w) = (b1, inr (VDict d)) →
  (∀ ms, dict_get "Messages" d = Some ms → py_len ms = inr 0%nat) →
  process_queue py_repr c url w
    = (World b1 (calls w ++ [Call "receive_message" (poll_request url) (inr (VDict d))])
         (stdout w),
       inr VNone).
Proof.
  intros Hpoll Hempty. unfold process_queue, poll_queue, invoke. py_unfold.
  unfold poll_request in Hpoll. simpl. rewrite Hpoll.
  unfold has_messages. simpl. unfold dict_has.
  destruct (dict_get "Messages" d) as [ms|] eqn:Hd; [|reflexivity].
  by rewrite (Hempty ms eq_refl).
Qed.

Lemma process_message_missing_key c url m w (key : string) :
  missing_key m = Some key →
  process_message py_repr c url m w
    = (World (backend w) (calls w)
         (stdout w ++ if String.eqb key "ReceiptHandle"
                      then [processing_line py_repr m] else []),
       inl (KeyError key)).
Proof.
  unfold missing_key, process_message, processing_line, dict_has.
  destruct m as [| | | |d| |]; try done. simpl.
  destruct (dict_get "MessageId" d) as [i|]; simpl.
  2:{ intros [= <-]. py_unfold. simpl. rewrite app_nil_r. by destruct w. }
  destruct (dict_get "Body" d) as [b|]; simpl.
  2:{ intros [= <-]. py_unfold. simpl. rewrite app_nil_r. by destruct w. }
  destruct (dict_get "ReceiptHandle" d) as [rh|]; simpl; [done|].
  intros [= <-]. py_unfold. reflexivity.
Qed.

(** X2. A received message that lacks one of ['MessageId'], ['Body'] and
    ['ReceiptHandle'] is never deleted and ends the loop: unless the deletion
    of an earlier message raised, [process_queue] raises [KeyError] for the
    first key missing, having requested the deletion of the messages before
    it and of none after; when the key is ['ReceiptHandle'] the message has
    been printed all the same. *)
Theorem process_queue_stops_at_missing_key c url w w' (r : result value) (b1 : B)
    (objects : value) (seen : list value) m (rest : list value) (key : string) :
  c "receive_message" (poll_request url) (backend w) = (b1, inr objects) →
  subscript objects "Messages" = inr (VList (seen ++ m :: rest)) →
  Forall well_delivered seen →
  missing_key m = Some key →
  process_queue py_repr c url w = (w', r) →
  let poll := Call "receive_message" (poll_request url) (inr objects) in
  (∃ (seen1 : list value) (rs : list value) (m1 : value) (rest1 : list value) (e : exn),
     seen = seen1 ++ m1 :: rest1 ∧ length rs = length seen1 ∧ r = inl e ∧
     new_calls w w' =
       poll :: zip_with (fun m x => delete_message_call url m (inr x)) seen1 rs
            ++ [delete_message_call url m1 (inl e)]) ∨
  (∃ rs : list value,
     length rs = length seen ∧ r = inl (KeyError key) ∧
     new_calls w w' =
       poll :: zip_with (fun m x => delete_message_call url m (inr x)) seen rs ∧
     stdout w' = stdout w ++ (processing_line py_repr <$> seen)
                   ++ if String.eqb key "ReceiptHandle"
                      then [processing_line py_repr m] else []).
Proof.
  intros Hpoll Hms Hwf Hkey. unfold process_queue, poll_queue.
  intros [(e & H1 & ->) | (w1 & objs & H1 & H2)]%bind_inv;
    rewrite bind_ret in H1; apply invoke_inv in H1 as (Hb & Hc & Ho);
    simpl in Hb; unfold poll_request in Hpoll; rewrite Hpoll in Hb; [done|].
  injection Hb as Hb <-.
  rewrite (has_messages_list _ _ Hms) in H2.
  apply bind_inv in H2 as [(e & [_ [=]]%lift_inv & _) | (w2 & go & [-> [= ->]]%lift_inv & H2)].
  assert (negb (length (seen ++ m :: rest) =? 0)%nat = true) as Hlen
    by (rewrite length_app; simpl length; by rewrite Nat.add_succ_r).
  rewrite Hlen, Hms in H2. py_unfold. unfold py_iter in H2.
  destruct (for_each (seen ++ m :: rest) _ w1) as [w2 [e|[]]] eqn:Hloop;
    injection H2 as <- <-; rewrite for_each_app in Hloop;
    apply bind_inv in Hloop as [(e' & Hseen & He) | (w3 & [] & Hseen & Hm)].
  - injection He as <-. left.
    apply process_each_raises in Hseen
      as (seen1 & rs & m1 & rest1 & -> & Hl & Hcalls & _); [|done].
    exists seen1, rs, m1, rest1, e. split_and!; [done..|].
    apply new_calls_app. by rewrite Hcalls, Hc, <-app_assoc.
  - right. apply process_each_returns in Hseen as (rs & Hl & Hcalls & Hout); [|done].
    simpl in Hm. apply bind_inv in Hm as [(e' & Hm & [= <-]) | (w4 & [] & Hm & _)];
      rewrite (process_message_missing_key _ _ _ _ _ Hkey) in Hm; [|done].
    injection Hm as <- <-. exists rs. simpl. split_and!; [done..| |].
    + apply new_calls_app. by rewrite Hcalls, Hc, <-app_assoc.
    + by rewrite Hout, Ho, <-app_assoc.
  - done.
  - exfalso. simpl in Hm. apply bind_inv in Hm as [(e' & _ & [=]) | (w4 & [] & Hm & _)].
    by rewrite (process_message_missing_key _ _ _ _ _ Hkey) in Hm.
Qed.

End DrainingEdges.

(** The requests of a computation, read off its text: [tac] shows that a
    request of the method and arguments at hand is as wanted. *)
Ltac issues_only_by tac :=
  repeat first
    [ apply issues_only_ret
    | apply issues_only_lift
    | apply issues_only_raise
    | apply issues_only_print
    | apply issues_only_invoke; intros ?; tac
    | apply issues_only_for_each; intros ?
    | apply issues_only_bind; [|intros ?]
    | match goal with
      | |- issues_only _ (if ?b then _ else _) => destruct b
      end ].

Ltac in_methods :=
  simpl; repeat first [apply list_elem_of_here | apply list_elem_of_further].

Section PollingOnce.
Context {B : Type}.
Variable py_repr : value → string.
Implicit Types (c : client B) (w : world B) (url : value).

Lemma process_loop_requests c url (objects : value) (go : bool) :
  issues_only
    (fun k => meth k = "delete_message" ∧ dict_get "QueueUrl" (args k) = Some url)
    (if go
     then ms ← lift (subscript objects "Messages");
          messages ← lift (py_iter ms);
          for_each messages (process_message py_repr c url)
     else mret tt).
Proof.
  unfold process_message, delete_message_from_queue.
  issues_only_by ltac:(by simpl).
Qed.

(** X3. Whatever the service answers, [process_queue] polls once, first
    and for up to ten messages, and every other request it makes is a
    [delete_message] on the URL it was given; when it returns, it returns
    [None], not a response. *)
Theorem process_queue_polls_once c url w w' (r : result value) :
  process_queue py_repr c url w = (w', r) →
  ∃ (o : result value) (l : list call),
    new_calls w w' = Call "receive_message" (poll_request url) o :: l ∧
    Forall (fun k => meth k = "delete_message" ∧
                     dict_get "QueueUrl" (args k) = Some url) l ∧
    (∀ v, r = inr v → v = VNone).
Proof.
  unfold process_queue, poll_queue.
  intros [(e & H1 & ->) | (w1 & objs & H1 & H)]%bind_inv;
    rewrite bind_ret in H1; apply invoke_inv in H1 as (_ & Hc & _).
  { exists (inl e), []. split_and!; [by apply new_calls_app|apply List.Forall_nil|done]. }
  apply bind_inv in H as [(e & [-> _]%lift_inv & ->) | (w2 & go & [-> _]%lift_inv & H)].
  { exists (inr objs), []. split_and!; [by apply new_calls_app|apply List.Forall_nil|done]. }
  apply bind_inv in H as [(e & H & ->) | (w3 & [] & H & H')];
    apply process_loop_requests in H as (l & Hl & HP);
    exists (inr objs), l; (split_and!; [|done|]).
  - apply new_calls_app. by rewrite Hl, Hc, <-app_assoc.
  - done.
  - injection H' as <- _. apply new_calls_app. by rewrite Hl, Hc, <-app_assoc.
  - injection H' as _ <-. by intros v [= <-].
Qed.

End PollingOnce.

(** The reference service with eleven messages in the queue. *)
Lemma process_queue_polls_once_witness :
  let url := VStr (Fake.url_of "q") in
  let w := Fake.start (queue_with (replicate 11 "x")) in
  let run := process_queue plain_repr Fake.service url w in
  run.2 = inr VNone ∧
  length (new_calls w run.1) = 11%nat ∧
  (length <$> (Fake.q_messages <$> Fake.find_queue (Fake.url_of "q") (backend run.1)))
    = Some 1%nat.
Proof.
  intros url w run.
  destruct (process_queue_polls_once plain_repr Fake.service url w run.1 run.2)
    as (o & l & Hcalls & _ & Hnone).
  - vm_compute. reflexivity.
  - split_and!; vm_compute; reflexivity.
Defined.

Section SendingAndLooking.
Context {B : Type}.
Implicit Types (c resource : client B) (w : world B) (url msg name : value).

(** X4. [send_message_to_queue] refuses, before any request and with a
    [TypeError], a message that is not a mapping and one that has a key
    ['QueueUrl'] of its own; any other makes one [send_message] request, with
    the URL given first and then the items of the message as they are. *)
Theorem send_message_to_queue_cases c url msg w :
  match msg with
  | VDict kw =>
      if dict_has "QueueUrl" kw
      then send_message_to_queue c url msg w
           = (w, inl (TypeError "got multiple values for keyword argument 'QueueUrl'"))
      else
        let '(b', r) := c "send_message" (("QueueUrl", url) :: kw) (backend w) in
        send_message_to_queue c url msg w
        = (World b' (calls w ++ [Call "send_message" (("QueueUrl", url) :: kw) r])
             (stdout w), r)
  | _ =>
      send_message_to_queue c url msg w
      = (w, inl (TypeError "argument after ** must be a mapping"))
  end.
Proof.
  unfold send_message_to_queue. destruct msg as [| | | |kw| |]; try reflexivity.
  py_unfold. simpl. destruct (dict_has "QueueUrl" kw); [reflexivity|].
  unfold invoke. by destruct (c "send_message" _ (backend w)) as [b' [e|x]].
Qed.

(** X5. [get_queue_arn] makes one lookup and nothing guards it: when
    the lookup raises, as for a queue that does not exist, it raises the same;
    when the object found has no attributes it raises [AttributeError], and
    when these have no ['QueueArn'], [KeyError]; otherwise it returns the
    ['QueueArn'] found.  It prints nothing. *)
Theorem get_queue_arn_outcome resource name w w' (r : result value) :
  get_queue_arn resource name w = (w', r) →
  let found := resource "get_queue_by_name" [("QueueName", name)] (backend w) in
  new_calls w w' = [Call "get_queue_by_name" [("QueueName", name)] found.2] ∧
  backend w' = found.1 ∧
  stdout w' = stdout w ∧
  match found.2 with
  | inl e => r = inl e
  | inr (VObj fields) =>
      match dict_get "attributes" fields with
      | None => r = inl (AttributeError "attributes")
      | Some (VDict d) =>
          match dict_get "QueueArn" d with
          | Some arn => r = inr arn
          | None => r = inl (KeyError "QueueArn")
          end
      | Some _ => ∃ text : string, r = inl (TypeError text)
      end
  | inr _ => r = inl (AttributeError "attributes")
  end.
Proof.
  unfold get_queue_arn. py_unfold. unfold invoke.
  destruct (resource "get_queue_by_name" _ (backend w)) as [b1 [e|queue]] eqn:Hfound;
    simpl.
  - intros [= <- <-]. simpl. split_and!; [|done..]. by apply new_calls_app.
  - destruct queue as [| | | | | |fields]; simpl;
      try (intros [= <- <-]; simpl; split_and!; [by apply new_calls_app|done..]).
    destruct (dict_get "attributes" fields) as [attrs|]; simpl.
    2:{ intros [= <- <-]; simpl; split_and!; [by apply new_calls_app|done..]. }
    destruct attrs as [| | | |d| |]; simpl;
      try (intros [= <- <-]; simpl; split_and!; [by apply new_calls_app|done..|by eexists]).
    destruct (dict_get "QueueArn" d); intros [= <- <-]; simpl;
      (split_and!; [by apply new_calls_app|done..]).
Qed.

End SendingAndLooking.

(** A lookup of a queue that the reference service does not have. *)
Lemma get_queue_arn_outcome_witness :
  let run := get_queue_arn Fake.service (VStr "nowhere") (Fake.start Fake.empty) in
  run.2 = inl (ClientError "AWS.SimpleQueueService.NonExistentQueue") ∧
  length (new_calls (Fake.start Fake.empty) run.1) = 1%nat.
Proof.
  intros run.
  destruct (get_queue_arn_outcome Fake.service (VStr "nowhere") (Fake.start Fake.empty)
              run.1 run.2) as (Hcalls & _ & _ & Hr).
  - vm_compute. reflexivity.
  - split; [exact Hr|]. rewrite Hcalls. reflexivity.
Defined.

(** ** Deleting queues: the empty set, and a set against its elements *)

Section DeletingMore.
Context {B : Type}.
Implicit Types (c : client B) (w : world B).

(** X9. On the empty set [sqs_delete_queue] makes no request and returns
    the empty dict; the world is as before. *)
Theorem sqs_delete_queue_empty_set c w :
  sqs_delete_queue c (VSet ∅) w = (w, inr (VDict [])).
Proof. unfold sqs_delete_queue. by rewrite elements_empty. Qed.

Lemma delete_each_as_singles c (urls : list string) (resp : list (string * value)) w :
  (delete_each c urls resp w).1 = (delete_singly c urls w).1 ∧
  (∀ e, (delete_each c urls resp w).2 = inl e ↔ (delete_singly c urls w).2 = inl e).
Proof.
  revert resp w. unfold delete_singly, sqs_delete_queue. py_unfold.
  induction urls as [|u urls IH]; intros resp w; simpl.
  - split; [done|]. intros e. split; intros [=].
  - py_unfold.
    destruct (invoke c "delete_queue" [("QueueUrl", VStr u)] w) as [w1 [e|x]];
      simpl; [split; [reflexivity|intros e0; split; by intros [= ->]]|apply IH].
Qed.

(** X10. Deleting a set of queues does to the service, to the log of
    requests and to the output what deleting its URLs one by one with the
    string form does, in the order the set is visited, and it raises exactly
    when that raises, with the same exception. *)
Theorem sqs_delete_queue_set_as_singles c (s : gset string) w :
  (sqs_delete_queue c (VSet s) w).1 = (delete_singly c (elements s) w).1 ∧
  (∀ e, (sqs_delete_queue c (VSet s) w).2 = inl e
        ↔ (delete_singly c (elements s) w).2 = inl e).
Proof.
  destruct (delete_each_as_singles c (elements s) [] w) as [Hw He].
  unfold sqs_delete_queue. py_unfold.
  destruct (delete_each c (elements s) [] w) as [w1 [e|d]]; simpl in *;
    (split; [done|]); intros e0; rewrite <-He; split; intros [=]; by subst.
Qed.

End DeletingMore.

(** ** The script as a whole *)

Section FailFast.
Context {B : Type}.
Implicit Types (c : client B) (w : world B).

Lemma fail_fast_quiet {A : Type} (m : py B A) :
  (∀ w w' r, m w = (w', r) → calls w' = calls w) → fail_fast m.
Proof.
  intros Hm w w' r H. exists []. rewrite app_nil_r.
  split; [by eapply Hm|]. left. apply List.Forall_nil.
Qed.

Lemma fail_fast_ret {A : Type} (x : A) : fail_fast (B := B) (mret x).
Proof. apply fail_fast_quiet. by intros w w' r [= <- <-]. Qed.

Lemma fail_fast_lift {A : Type} (x : result A) : fail_fast (B := B) (lift x).
Proof. apply fail_fast_quiet. by intros w w' r [= <- <-]. Qed.

Lemma fail_fast_raise {A : Type} (e : exn) : fail_fast (B := B) (A := A) (raise e).
Proof. apply fail_fast_quiet. by intros w w' r [= <- <-]. Qed.

Lemma fail_fast_print (line : string) : fail_fast (B := B) (print line).
Proof. apply fail_fast_quiet. by intros w w' r [= <- <-]. Qed.

Lemma fail_fast_invoke c (m : string) (a : kwargs) : fail_fast (invoke c m a).
Proof.
  intros w w' r (_ & Hc & _)%invoke_inv. exists [Call m a r]. split; [done|].
  destruct r as [e|x].
  - right. exists [], (Call m a (inl e)), e. split_and!; [done|apply List.Forall_nil|done..].
  - left. apply Forall_singleton. by exists x.
Qed.

Lemma fail_fast_bind {A C : Type} (m : py B A) (k : A → py B C) :
  fail_fast m → (∀ x, fail_fast (k x)) → fail_fast (x ← m; k x).
Proof.
  intros Hm Hk w w' r [(e & H1 & ->) | (w1 & x & H1 & H2)]%bind_inv.
  - destruct (Hm _ _ _ H1) as (l & Hc & [Hl | (l0 & k0 & e0 & -> & Hl0 & Hk0 & [= ->])]).
    + exists l. split; [done|]. by left.
    + exists (l0 ++ [k0]). split; [done|]. right. by exists l0, k0, e0.
  - destruct (Hm _ _ _ H1) as (l1 & Hc1 & [Hl1 | (? & ? & ? & _ & _ & _ & [=])]).
    destruct (Hk x _ _ _ H2) as (l2 & Hc2 & [Hl2 | (l0 & k0 & e0 & -> & Hl0 & Hk0 & ->)]).
    + exists (l1 ++ l2). split; [by rewrite Hc2, Hc1, <-app_assoc|].
      left. by apply Forall_app.
    + exists (l1 ++ l0 ++ [k0]). split; [by rewrite Hc2, Hc1, <-app_assoc|].
      right. exists (l1 ++ l0), k0, e0.
      split_and!; [by rewrite <-app_assoc|by apply Forall_app|done..].
Qed.

Lemma fail_fast_for_each {A : Type} (xs : list A) (body : A → py B unit) :
  (∀ x, fail_fast (body x)) → fail_fast (for_each xs body).
Proof.
  intros Hbody. induction xs as [|x xs IH]; simpl.
  - apply fail_fast_ret.
  - apply fail_fast_bind; [apply Hbody|]. intros _. apply IH.
Qed.

End FailFast.

Ltac fail_fast_steps :=
  repeat first
    [ apply fail_fast_ret
    | apply fail_fast_lift
    | apply fail_fast_raise
    | apply fail_fast_print
    | apply fail_fast_invoke
    | apply fail_fast_for_each; intros ?
    | apply fail_fast_bind; [|intros ?]
    | match goal with
      | |- fail_fast (if ?b then _ else _) => destruct b
      end ].

Ltac unfold_script :=
  unfold main, main_queues, main_messages, sqs_create_queue, sqs_create_fifo_queue,
    create_queue_with_dead_letter, get_queue_arn, sqs_create_queue_dead_dependency,
    set_add, print_json, send_message_to_queue, send_batch_messages, process_queue,
    poll_queue, process_message, delete_message_from_queue;
  cbv zeta.

Section Whole.
Context {B : Type}.
Variable json_dumps : value → result string.
Variable py_repr : value → string.
Implicit Types (c resource : client B) (w : world B) (k : call).

Lemma main_fail_fast c resource (now : string) (uuid1 : nat → string) :
  fail_fast (main json_dumps py_repr c resource now uuid1).
Proof. unfold_script. fail_fast_steps. Qed.

Lemma main_requests c resource (now : string) (uuid1 : nat → string) :
  issues_only (fun k => meth k ∈ script_methods)
    (main json_dumps py_repr c resource now uuid1).
Proof. unfold_script. issues_only_by in_methods. Qed.

(** X6. The script only creates queues, looks one up, and sends, receives
    and deletes messages: no run of it requests the deletion or the purge of
    a queue, nor a change of visibility, so the queues it created are left in
    place. *)
Theorem main_leaves_queues_in_place c resource (now : string) (uuid1 : nat → string)
    w w' (r : result unit) k :
  main json_dumps py_repr c resource now uuid1 w = (w', r) →
  k ∈ new_calls w w' →
  meth k ∈ script_methods ∧
  meth k ≠ "delete_queue" ∧ meth k ≠ "purge_queue" ∧
  meth k ≠ "change_message_visibility".
Proof.
  intros (l & Hc & Hl)%main_requests Hk.
  rewrite (new_calls_app _ _ _ Hc) in Hk.
  pose proof (proj1 (Forall_forall _ _) Hl k Hk) as Hm. simpl in Hm.
  split; [done|].
  split_and!; intros Heq; rewrite Heq in Hm;
    repeat (apply elem_of_cons in Hm as [Hm|Hm]; [discriminate Hm|]);
    by apply elem_of_nil in Hm.
Qed.

(** X7. Nothing in the script catches an exception: in a run of it, a
    request that raised is the last request made, and the script ends by
    raising what that request raised. *)
Theorem main_stops_at_first_failure c resource (now : string) (uuid1 : nat → string)
    w w' (r : result unit) (l0 l1 : list call) k (e : exn) :
  main json_dumps py_repr c resource now uuid1 w = (w', r) →
  new_calls w w' = l0 ++ k :: l1 →
  outcome k = inl e →
  l1 = [] ∧ r = inl e.
Proof.
  intros (l & Hc & Hl)%main_fail_fast Hsplit Hk.
  rewrite (new_calls_app _ _ _ Hc) in Hsplit. subst l.
  assert (¬ returned k) as Hnot by (intros [x Hx]; congruence).
  destruct Hl as [Hl | (l2 & k2 & e2 & Heq & Hl2 & Hk2 & ->)].
  - exfalso. apply Hnot. apply (proj1 (Forall_forall _ _) Hl). set_solver.
  - destruct l1 as [|k1 l1 _] using rev_ind.
    + apply app_inj_tail in Heq as [_ ->]. split; [done|]. congruence.
    + exfalso. apply Hnot. apply (proj1 (Forall_forall _ _) Hl2).
      change (l0 ++ k :: l1 ++ [k1]) with (l0 ++ (k :: l1) ++ [k1]) in Heq.
      rewrite app_assoc in Heq. apply app_inj_tail in Heq as [<- _]. set_solver.
Qed.

Lemma returns_only_ret {A : Type} (Q : A → Prop) (x : A) :
  Q x → returns_only (B := B) Q (mret x).
Proof. by intros HQ w w' v [= _ <-]. Qed.

Lemma returns_only_bind {A C : Type} (Q : C → Prop) (m : py B A) (f : A → py B C) :
  (∀ x, returns_only Q (f x)) → returns_only Q (x ← m; f x).
Proof.
  intros Hf w w' v [(e & _ & [=]) | (w1 & x & _ & H)]%bind_inv. by eapply Hf.
Qed.

(** When the first part of the script returns, its first request created
    the regular queue and returned, the URL it hands on is the ['QueueUrl'] of
    that response, and every later request of it creates or looks up a
    queue. *)
Lemma main_queues_returns c resource w w' (queues : value * list value) :
  main_queues json_dumps c resource w = (w', inr queues) →
  ∃ (reg : value) (l : list call),
    calls w' = calls w ++
      Call "create_queue" [("QueueName", VStr QUEUE_NAME)] (inr reg) :: l ∧
    subscript reg "QueueUrl" = inr queues.1 ∧
    Forall (fun k => meth k = "create_queue" ∨ meth k = "get_queue_by_name") l.
Proof.
  unfold main_queues. cbv zeta.
  intros [(e & _ & [=]) | (w1 & reg & Hc%sqs_create_queue_calls & H)]%bind_inv.
  apply bind_inv in H as [(e & _ & [=]) | (w2 & url & [-> Hurl]%lift_inv & H)].
  exists reg.
  match type of H with
  | ?m _ = _ =>
      assert (issues_only
                (fun k => meth k = "create_queue" ∨ meth k = "get_queue_by_name") m)
        as Hcalls;
      [|assert (returns_only (fun q : value * list value => q.1 = url) m) as Hret]
  end.
  - unfold_script. issues_only_by ltac:(simpl; auto).
  - repeat (apply returns_only_bind; intros ?). by apply returns_only_ret.
  - apply Hret in H as Hq. apply Hcalls in H as (l & Hl & HP).
    exists l. split_and!; [|by rewrite Hq|done].
    rewrite Hl, Hc, <-app_assoc. done.
Qed.

Lemma main_queues_only_queues c resource :
  issues_only (fun k => meth k = "create_queue" ∨ meth k = "get_queue_by_name")
    (main_queues json_dumps c resource).
Proof. unfold_script. issues_only_by ltac:(simpl; auto). Qed.

Lemma main_messages_one_queue c (url : value) (now : string) (uuid1 : nat → string) :
  issues_only (fun k => dict_get "QueueUrl" (args k) = Some url)
    (main_messages json_dumps py_repr c url now uuid1).
Proof. unfold_script. issues_only_by ltac:(by simpl). Qed.

(** X8. Every request of the script that sends, receives or deletes a
    message goes to one queue, the regular one: its ['QueueUrl'] is the one in
    the response to the first request of the run, which created the queue of
    the default name.  The FIFO, dead-letter and main queues get no
    message. *)
Theorem main_messages_go_to_regular_queue c resource (now : string)
    (uuid1 : nat → string) w w' (r : result unit) k :
  main json_dumps py_repr c resource now uuid1 w = (w', r) →
  k ∈ new_calls w w' →
  meth k ∈ message_methods →
  ∃ (reg url : value) (rest : list call),
    new_calls w w' =
      Call "create_queue" [("QueueName", VStr QUEUE_NAME)] (inr reg) :: rest ∧
    subscript reg "QueueUrl" = inr url ∧
    dict_get "QueueUrl" (args k) = Some url.
Proof.
  assert (∀ k', meth k' = "create_queue" ∨ meth k' = "get_queue_by_name" →
                meth k' ∈ message_methods → False) as Hother.
  { intros k' [Hm|Hm] Hin; rewrite Hm in Hin;
      repeat (apply elem_of_cons in Hin as [Hin|Hin]; [discriminate Hin|]);
      by apply elem_of_nil in Hin. }
  unfold main.
  intros [(e & H1 & ->) | (w1 & queues & H1 & H2)]%bind_inv Hk Hmeth.
  - exfalso. apply main_queues_only_queues in H1 as (l & Hl & HP).
    rewrite (new_calls_app _ _ _ Hl) in Hk.
    eapply Hother; [|exact Hmeth]. by apply (proj1 (Forall_forall _ _) HP).
  - apply main_queues_returns in H1 as (reg & l & Hl & Hurl & HP).
    apply main_messages_one_queue in H2 as (t & Ht & HQ).
    assert (calls w' = calls w ++
              Call "create_queue" [("QueueName", VStr QUEUE_NAME)] (inr reg) :: l ++ t)
      as Hall by (rewrite Ht, Hl, <-app_assoc; done).
    rewrite (new_calls_app _ _ _ Hall) in Hk |- *.
    exists reg, queues.1, (l ++ t). split_and!; [done..|].
    apply elem_of_cons in Hk as [->|Hk]; [exfalso; eapply Hother; [|exact Hmeth]; by left|].
    apply elem_of_app in Hk as [Hk|Hk].
    + exfalso. eapply Hother; [|exact Hmeth]. by apply (proj1 (Forall_forall _ _) HP).
    + by apply (proj1 (Forall_forall _ _) HQ).
Qed.

End Whole.

(** The poll of an empty queue on the reference service. *)
Lemma process_queue_nothing_received_witness :
  let url := VStr (Fake.url_of "q") in
  let w := Fake.start (queue_with []) in
  process_queue plain_repr Fake.service url w
    = (World (backend w) [Call "receive_message" (poll_request url) (inr (VDict []))] [],
       inr VNone).
Proof.
  intros url w.
  apply (process_queue_nothing_received plain_repr Fake.service url w (backend w) []).
  - vm_compute. reflexivity.
  - intros ms [=].
Defined.

(** Three messages received, the second without its body: the first is
    deleted, the second ends the loop and the third is not reached. *)
Lemma process_queue_stops_at_missing_key_witness :
  let m1 := VDict [("MessageId", VStr "a"); ("ReceiptHandle", VStr "ra");
                   ("Body", VStr "one")] in
  let m2 := VDict [("MessageId", VStr "b"); ("ReceiptHandle", VStr "rb")] in
  let m3 := VDict [("MessageId", VStr "c"); ("ReceiptHandle", VStr "rc");
                   ("Body", VStr "three")] in
  let c := canned (VDict [("Messages", VList [m1; m2; m3])]) in
  let run := process_queue plain_repr c (VStr "q") (World tt [] []) in
  run.2 = inl (KeyError "Body") ∧
  meth <$> calls run.1 = ["receive_message"; "delete_message"] ∧
  stdout run.1 = ["Processing message: a; body: one"].
Proof.
  intros m1 m2 m3 c run.
  destruct (process_queue_stops_at_missing_key plain_repr c (VStr "q") (World tt [] [])
              run.1 run.2 tt (VDict [("Messages", VList [m1; m2; m3])])
              [m1] m2 [m3] "Body")
    as [(seen1 & rs & m & rest1 & e & Hsplit & Hlen & _ & Hcalls)
       | (rs & Hlen & Hr & Hcalls & Hout)].
  - reflexivity.
  - reflexivity.
  - apply List.Forall_cons; [by do 3 eexists|apply List.Forall_nil].
  - reflexivity.
  - vm_compute. reflexivity.
  - destruct seen1 as [|x seen1]; [|destruct seen1; discriminate Hsplit].
    destruct rs; [|discriminate Hlen]. vm_compute in Hcalls. discriminate Hcalls.
  - split_and!; [exact Hr|vm_compute; reflexivity|exact Hout].
Defined.

(** The script on the empty reference service: its seventh request, the
    batch, is one of the methods of the script. *)
Lemma main_leaves_queues_in_place_witness :
  let w := Fake.start Fake.empty in
  let run := main plain_dumps plain_repr Fake.service Fake.service
               "2026-01-01 00:00:00" (fun i => "id" +:+ pretty i) w in
  ∃ k, new_calls w run.1 !! 6%nat = Some k ∧
       meth k = "send_message_batch" ∧ meth k ≠ "delete_queue" ∧
       length (Fake.queues (backend run.1)) = 4%nat.
Proof.
  intros w run.
  destruct (new_calls w run.1 !! 6%nat) as [k|] eqn:Hk; [|vm_compute in Hk; discriminate Hk].
  destruct (main_leaves_queues_in_place plain_dumps plain_repr Fake.service Fake.service
              "2026-01-01 00:00:00" (fun i => "id" +:+ pretty i) w run.1 run.2 k)
    as (_ & Hnot & _).
  - vm_compute. reflexivity.
  - by eapply list_elem_of_lookup_2.
  - exists k. split_and!; [done| |exact Hnot|vm_compute; reflexivity].
    vm_compute in Hk. by injection Hk as <-.
Defined.

(** The script on the reference service where a main queue has just been
    deleted: the fifth request raises and is the last. *)
Lemma main_stops_at_first_failure_witness :
  let w := Fake.start main_deleted_recently in
  let run := main plain_dumps plain_repr Fake.service Fake.service
               "2026-01-01 00:00:00" (fun i => "id" +:+ pretty i) w in
  run.2 = inl (ClientError "AWS.SimpleQueueService.QueueDeletedRecently") ∧
  length (new_calls w run.1) = 5%nat.
Proof.
  intros w run.
  assert (∃ l0 k, new_calls w run.1 = l0 ++ k :: [] ∧
                  outcome k = inl (ClientError "AWS.SimpleQueueService.QueueDeletedRecently"))
    as (l0 & k & Hsplit & Hk).
  { vm_compute. eexists [_; _; _; _], _. split; reflexivity. }
  destruct (main_stops_at_first_failure plain_dumps plain_repr Fake.service Fake.service
              "2026-01-01 00:00:00" (fun i => "id" +:+ pretty i) w run.1 run.2
              l0 [] k _ eq_refl Hsplit Hk) as [_ Hr].
  split; [exact Hr|vm_compute; reflexivity].
Defined.

(** The script on the empty reference service: its deletions of messages go
    to the URL the first request returned. *)
Lemma main_messages_go_to_regular_queue_witness :
  let w := Fake.start Fake.empty in
  let run := main plain_dumps plain_repr Fake.service Fake.service
               "2026-01-01 00:00:00" (fun i => "id" +:+ pretty i) w in
  ∃ k, last (new_calls w run.1) = Some k ∧ meth k = "delete_message" ∧
       dict_get "QueueUrl" (args k) = Some (VStr (Fake.url_of QUEUE_NAME)).
Proof.
  intros w run.
  destruct (last (new_calls w run.1)) as [k|] eqn:Hk; [|vm_compute in Hk; discriminate Hk].
  assert (meth k = "delete_message") as Hmeth
    by (vm_compute in Hk; by injection Hk as <-).
  destruct (main_messages_go_to_regular_queue plain_dumps plain_repr Fake.service
              Fake.service "2026-01-01 00:00:00" (fun i => "id" +:+ pretty i)
              w run.1 run.2 k)
    as (reg & url & rest & Hcalls & Hurl & Hq).
  - vm_compute. reflexivity.
  - apply last_Some in Hk as [l' ->]. set_solver.
  - rewrite Hmeth. in_methods.
  - exists k. split_and!; [done..|].
    vm_compute in Hk. injection Hk as <-. reflexivity.
Defined.
